(** * The memo store: server actions over the [memos] table

    A verification development for the memo data-access layer.  The two
    versions of the actions module ([app/actions/memos.ts] and the second
    copy of the module the repository holds) are embedded side by side over
    one storage-client interface; the storage backend behind the interface
    is modelled separately from its description. *)

From Stdlib Require Import ZArith String Ascii.
From stdpp Require Import base tactics option list sorting strings.

Local Open Scope string_scope.
Local Open Scope Z_scope.
Local Open Scope list_scope.
Local Open Scope stdpp_scope.

(** ** Strings as the actions use them *)

(** [String.prototype.toLowerCase] on ASCII strings: the letters [A] to [Z]
    are folded and every other character is kept.  Strings are byte strings
    here; on a string with a character outside ASCII the function of the
    language folds more than this one does, so what is stated of such
    strings is stated under [is_ascii]. *)
Definition lower_ascii (c : ascii) : ascii :=
  let n := nat_of_ascii c in
  if (65 <=? n)%nat && (n <=? 90)%nat then ascii_of_nat (n + 32) else c.

Fixpoint toLowerCase (s : string) : string :=
  match s with
  | EmptyString => EmptyString
  | String c s' => String (lower_ascii c) (toLowerCase s')
  end.

(** [s.includes(q)]: [q] occurs in [s] as a contiguous substring. *)
Fixpoint includes (s q : string) : bool :=
  String.prefix q s ||
  match s with
  | EmptyString => false
  | String _ s' => includes s' q
  end.

(** Every character of [s] passes the test [P]. *)
Fixpoint all_chars (P : ascii → bool) (s : string) : bool :=
  match s with
  | EmptyString => true
  | String c s' => P c && all_chars P s'
  end.

(** [a ?? d] on a nullable value. *)
Definition nullish {A} (a : option A) (d : A) : A :=
  match a with
  | Some v => v
  | None => d
  end.

(** [a || d] where [a] is an array or null: every array, the empty one
    included, is truthy. *)
Definition or_array {A} (a : option (list A)) (d : list A) : list A :=
  match a with
  | Some v => v
  | None => d
  end.

(** ** Data model *)

(** A [TIMESTAMPTZ] instant, in microseconds since the epoch.  The client
    carries its ISO-8601 rendering, which the actions copy and never
    inspect. *)
Definition timestamptz := Z.

(** [Database['public']['Tables']['memos']['Row']] of [types/database.ts]. *)
Module MemoRow.
Record t := mk {
  id : string;
  title : string;
  content : string;
  category : string;
  tags : option (list string);
  created_at : timestamptz;
  updated_at : timestamptz
}.
End MemoRow.

(** Modelled from the spec: the [Memo] interface of [types/memo], which the
    actions import; its fields are the ones the actions fill in. *)
Module Memo.
Record t := mk {
  id : string;
  title : string;
  content : string;
  category : string;
  tags : list string;
  createdAt : timestamptz;
  updatedAt : timestamptz
}.
End Memo.

(** Modelled from the spec: the [MemoFormData] interface of [types/memo],
    [{title, content, category?, tags?}]. *)
Module MemoFormData.
Record t := mk {
  title : string;
  content : string;
  category : option string;
  tags : option (list string)
}.
End MemoFormData.

(** ** The storage client *)

(** The values an insert or an update sends: [{title, content, category,
    tags}].  An undefined [category] is left out of the request body. *)
Record Payload := {
  p_title : string;
  p_content : string;
  p_category : option string;
  p_tags : list string
}.

(** One [column.operator.operand] term of a filter string, once the storage
    has taken the string apart. *)
Record Condition := {
  cond_column : string;
  cond_operator : string;
  cond_operand : string
}.

Inductive Verb :=
  | SelectRows
  | InsertRow (values : Payload)
  | UpdateRows (values : Payload)
  | DeleteRows.

Inductive Filter :=
  | FilterEq (column value : string)
  | FilterOr (filters : string).

Record Ordering := {
  ord_column : string;
  ascending : bool
}.

(** The request a query builder has accumulated so far. *)
Record Builder := {
  b_table : string;
  b_verb : option Verb;
  b_columns : option string;
  b_filters : list Filter;
  b_order : list Ordering;
  b_single : bool
}.

Record PostgrestError := {
  message : string;
  code : string
}.

(** What a [catch] clause can receive. *)
Inductive JsError :=
  | ErrPostgrest (e : PostgrestError)
  | ErrType (msg : string)
  | ErrFetch (msg : string).

(** The [{ data, error }] object an awaited builder resolves to. *)
Record Response (D : Type) := {
  data : option D;
  error : option PostgrestError
}.
Arguments data {D} _.
Arguments error {D} _.

Inductive Settled (D : Type) :=
  | Fulfilled (r : Response D)
  | Rejected (e : JsError).
Arguments Fulfilled {D} _.
Arguments Rejected {D} _.

(** The client the actions talk to.  A builder finished with [.single()]
    resolves to one row, any other builder to an array of rows. *)
Class StorageClient (S : Type) := {
  request_rows : Builder → S → Settled (list MemoRow.t) * S;
  request_row : Builder → S → Settled MemoRow.t * S
}.

(** ** Effects of an action *)

Inductive Reply :=
  | Rows (r : Settled (list MemoRow.t))
  | Row (r : Settled MemoRow.t).

Inductive Event :=
  | Requested (b : Builder) (reply : Reply)
  | Logged (label : string) (e : JsError)
  | Revalidated (path : string).

(** The storage behind the client and the query builders that are alive;
    a builder is referred to by its index. *)
Record World (S : Type) := {
  storage : S;
  heap : list Builder
}.
Arguments storage {S} _.
Arguments heap {S} _.

Inductive Completion (A : Type) :=
  | Return (a : A)
  | Throw (e : JsError).
Arguments Return {A} _.
Arguments Throw {A} _.

Record Run (S A : Type) := {
  outcome : Completion A;
  final : World S;
  events : list Event
}.
Arguments outcome {S A} _.
Arguments final {S A} _.
Arguments events {S A} _.

Definition Action (S A : Type) : Type := World S → Run S A.

Definition ret {S A} (a : A) : Action S A :=
  λ w, {| outcome := Return a; final := w; events := [] |}.

Definition throw {S A} (e : JsError) : Action S A :=
  λ w, {| outcome := Throw e; final := w; events := [] |}.

(** The events of the first part of a sequence, put before the events of
    the rest. *)
Definition prepend {S A} (evs : list Event) (r : Run S A) : Run S A :=
  match r with
  | Build_Run _ _ o w evs' => {| outcome := o; final := w; events := evs ++ evs' |}
  end.
Arguments prepend {S A} evs !r /.

Definition bind_on {S A B} (k : A → Action S B) (r : Run S A) : Run S B :=
  match r with
  | Build_Run _ _ (Return a) w evs => prepend evs (k a w)
  | Build_Run _ _ (Throw e) w evs =>
      {| outcome := Throw e; final := w; events := evs |}
  end.
Arguments bind_on {S A B} k !r /.

Definition bind {S A B} (k : A → Action S B) (m : Action S A) : Action S B :=
  λ w, bind_on k (m w).

#[global] Instance action_ret {S} : MRet (Action S) := @ret S.
#[global] Instance action_bind {S} : MBind (Action S) := @bind S.

(** Method chaining: [m |> f] awaits nothing, it passes the builder [m]
    returns on to the method [f]. *)
Notation "m |> f" := (mbind f m) (at level 50, left associativity).

(** [try { body } catch (error) { handler }] *)
Definition catch_on {S A} (handler : JsError → Action S A) (r : Run S A)
  : Run S A :=
  match r with
  | Build_Run _ _ (Return a) w evs =>
      {| outcome := Return a; final := w; events := evs |}
  | Build_Run _ _ (Throw e) w evs => prepend evs (handler e w)
  end.
Arguments catch_on {S A} handler !r /.

Definition try_catch {S A} (body : Action S A) (handler : JsError → Action S A)
  : Action S A :=
  λ w, catch_on handler (body w).

Definition emit {S} (ev : Event) : Action S unit :=
  λ w, {| outcome := Return tt; final := w; events := [ev] |}.

Definition console_error {S} (label : string) (e : JsError) : Action S unit :=
  emit (Logged label e).

Definition revalidatePath {S} (path : string) : Action S unit :=
  emit (Revalidated path).

(** *** Query builders *)

Definition set_heap {S} (h : list Builder) (w : World S) : World S :=
  {| storage := storage w; heap := h |}.

Definition set_storage {S} (s : S) (w : World S) : World S :=
  {| storage := s; heap := heap w |}.

Definition chain {S} (f : Builder → Builder) (q : nat) : Action S nat :=
  λ w,
    match heap w !! q with
    | Some b =>
        {| outcome := Return q; final := set_heap (<[q := f b]> (heap w)) w;
           events := [] |}
    | None =>
        {| outcome := Throw (ErrType "query is undefined"); final := w;
           events := [] |}
    end.

Definition with_verb (v : Verb) (b : Builder) : Builder :=
  {| b_table := b_table b; b_verb := Some v; b_columns := b_columns b;
     b_filters := b_filters b; b_order := b_order b; b_single := b_single b |}.

Definition with_filter (f : Filter) (b : Builder) : Builder :=
  {| b_table := b_table b; b_verb := b_verb b; b_columns := b_columns b;
     b_filters := b_filters b ++ [f]; b_order := b_order b;
     b_single := b_single b |}.

(** The methods of the client, under the name the actions call them by.
    The client library is outside the repository; its builders are taken to
    be mutable objects: [from] makes a new builder, and every chained method
    updates the builder it is called on and returns that same builder.
    Nothing is sent before the builder is awaited. *)
Module supabase.

Definition from {S} (table : string) : Action S nat :=
  λ w,
    {| outcome := Return (length (heap w));
       final := set_heap (heap w ++
                  [{| b_table := table; b_verb := None; b_columns := None;
                      b_filters := []; b_order := []; b_single := false |}]) w;
       events := [] |}.

(** [.select(columns = '*')]: on a new builder this makes the request a
    read; after [.insert] or [.update] it asks for the written rows back. *)
Definition select {S} (columns : option string) : nat → Action S nat :=
  chain (λ b,
    {| b_table := b_table b;
       b_verb := Some (nullish (b_verb b) SelectRows);
       b_columns := Some (nullish columns "*");
       b_filters := b_filters b; b_order := b_order b;
       b_single := b_single b |}).

Definition insert {S} (values : Payload) : nat → Action S nat :=
  chain (with_verb (InsertRow values)).

Definition update {S} (values : Payload) : nat → Action S nat :=
  chain (with_verb (UpdateRows values)).

Definition delete {S} : nat → Action S nat :=
  chain (with_verb DeleteRows).

Definition eq {S} (column value : string) : nat → Action S nat :=
  chain (with_filter (FilterEq column value)).

(** [.or(filters)]: the filter string goes into the request as it is. *)
Definition or {S} (filters : string) : nat → Action S nat :=
  chain (with_filter (FilterOr filters)).

Definition order {S} (column : string) (asc : bool) : nat → Action S nat :=
  chain (λ b,
    {| b_table := b_table b; b_verb := b_verb b; b_columns := b_columns b;
       b_filters := b_filters b;
       b_order := b_order b ++ [{| ord_column := column; ascending := asc |}];
       b_single := b_single b |}).

Definition single {S} : nat → Action S nat :=
  chain (λ b,
    {| b_table := b_table b; b_verb := b_verb b; b_columns := b_columns b;
       b_filters := b_filters b; b_order := b_order b; b_single := true |}).

End supabase.

(** What awaiting a builder comes to once the client has settled the
    request: the response, or the rejection thrown. *)
Definition settle {S D} (wrap : Settled D → Reply) (b : Builder)
    (h : list Builder) (settled : Settled D) (s' : S) : Run S (Response D) :=
  {| outcome := match settled with
                | Fulfilled r => Return r
                | Rejected e => Throw e
                end;
     final := {| storage := s'; heap := h |};
     events := [Requested b (wrap settled)] |}.
Arguments settle {S D} wrap b h !settled s' /.

(** [await query], for a builder that resolves to an array of rows. *)
Definition await_rows {S} `{StorageClient S} (q : nat)
  : Action S (Response (list MemoRow.t)) :=
  λ w,
    match heap w !! q with
    | Some b =>
        let reply := request_rows b (storage w) in
        settle Rows b (heap w) reply.1 reply.2
    | None =>
        {| outcome := Throw (ErrType "query is undefined"); final := w;
           events := [] |}
    end.

(** [await query], for a builder finished with [.single()]. *)
Definition await_row {S} `{StorageClient S} (q : nat)
  : Action S (Response MemoRow.t) :=
  λ w,
    match heap w !! q with
    | Some b =>
        let reply := request_row b (storage w) in
        settle Row b (heap w) reply.1 reply.2
    | None =>
        {| outcome := Throw (ErrType "query is undefined"); final := w;
           events := [] |}
    end.

(** An undefined or a boolean in a condition position. *)
Definition truthy (b : option bool) : bool :=
  match b with
  | Some v => v
  | None => false
  end.

(** The select list [app/actions/memos.ts] passes to every read. *)
Definition memo_columns : string :=
  "id, title, content, category, tags, created_at, updated_at".

(** ** The actions of [app/actions/memos.ts] *)
Module Memos.
Section actions.
Context {S : Type} `{StorageClient S}.

Definition getMemos : Action S (list Memo.t) :=
  try_catch
    (query ← supabase.from "memos"
         |> supabase.select (Some memo_columns)
         |> supabase.order "created_at" false;
     r ← await_rows query;
     match error r with
     | Some error =>
         console_error "Error fetching memos:" (ErrPostgrest error);;
         throw (ErrPostgrest error)
     | None =>
         match data r with
         | None => mret []
         | Some data =>
             mret ((λ memo, {| Memo.id := MemoRow.id memo;
                                    Memo.title := MemoRow.title memo;
                                    Memo.content := MemoRow.content memo;
                                    Memo.category := MemoRow.category memo;
                                    Memo.tags := nullish (MemoRow.tags memo) [];
                                    Memo.createdAt := MemoRow.created_at memo;
                                    Memo.updatedAt := MemoRow.updated_at memo |}) <$> data)
         end
     end)
    (λ error, console_error "Failed to fetch memos:" error;; mret []).

Definition getMemoById (id : string) : Action S (option Memo.t) :=
  try_catch
    (query ← supabase.from "memos"
         |> supabase.select (Some memo_columns)
         |> supabase.eq "id" id
         |> supabase.single;
     r ← await_row query;
     match error r with
     | Some error =>
         console_error "Error fetching memo:" (ErrPostgrest error);;
         mret None
     | None =>
         match data r with
         | None => mret None
         | Some memo =>
             mret (Some {| Memo.id := MemoRow.id memo;
                           Memo.title := MemoRow.title memo;
                           Memo.content := MemoRow.content memo;
                           Memo.category := MemoRow.category memo;
                           Memo.tags := nullish (MemoRow.tags memo) [];
                           Memo.createdAt := MemoRow.created_at memo;
                           Memo.updatedAt := MemoRow.updated_at memo |})
         end
     end)
    (λ error, console_error "Failed to fetch memo:" error;; mret None).

Definition createMemo (formData : MemoFormData.t) : Action S (option Memo.t) :=
  try_catch
    (let insertData :=
       {| p_title := MemoFormData.title formData;
          p_content := MemoFormData.content formData;
          p_category := MemoFormData.category formData;
          p_tags := or_array (MemoFormData.tags formData) [] |} in
     query ← supabase.from "memos"
         |> supabase.insert insertData
         |> supabase.select (Some memo_columns)
         |> supabase.single;
     r ← await_row query;
     match error r with
     | Some error =>
         console_error "Error creating memo:" (ErrPostgrest error);;
         throw (ErrPostgrest error)
     | None =>
         match data r with
         | None => mret None
         | Some memo =>
             let result :=
               {| Memo.id := MemoRow.id memo;
                  Memo.title := MemoRow.title memo;
                  Memo.content := MemoRow.content memo;
                  Memo.category := MemoRow.category memo;
                  Memo.tags := nullish (MemoRow.tags memo) [];
                  Memo.createdAt := MemoRow.created_at memo;
                  Memo.updatedAt := MemoRow.updated_at memo |} in
             revalidatePath "/";;
             mret (Some result)
         end
     end)
    (λ error, console_error "Failed to create memo:" error;; mret None).

Definition updateMemo (id : string) (formData : MemoFormData.t)
  : Action S (option Memo.t) :=
  try_catch
    (let updateData :=
       {| p_title := MemoFormData.title formData;
          p_content := MemoFormData.content formData;
          p_category := MemoFormData.category formData;
          p_tags := or_array (MemoFormData.tags formData) [] |} in
     query ← supabase.from "memos"
         |> supabase.update updateData
         |> supabase.eq "id" id
         |> supabase.select (Some memo_columns)
         |> supabase.single;
     r ← await_row query;
     match error r with
     | Some error =>
         console_error "Error updating memo:" (ErrPostgrest error);;
         throw (ErrPostgrest error)
     | None =>
         match data r with
         | None => mret None
         | Some memo =>
             let result :=
               {| Memo.id := MemoRow.id memo;
                  Memo.title := MemoRow.title memo;
                  Memo.content := MemoRow.content memo;
                  Memo.category := MemoRow.category memo;
                  Memo.tags := nullish (MemoRow.tags memo) [];
                  Memo.createdAt := MemoRow.created_at memo;
                  Memo.updatedAt := MemoRow.updated_at memo |} in
             revalidatePath "/";;
             mret (Some result)
         end
     end)
    (λ error, console_error "Failed to update memo:" error;; mret None).

Definition deleteMemo (id : string) : Action S bool :=
  try_catch
    (query ← supabase.from "memos" |> supabase.delete |> supabase.eq "id" id;
     r ← await_rows query;
     match error r with
     | Some error =>
         console_error "Error deleting memo:" (ErrPostgrest error);;
         throw (ErrPostgrest error)
     | None =>
         revalidatePath "/";;
         mret true
     end)
    (λ error, console_error "Failed to delete memo:" error;; mret false).

Definition searchMemos (query : string) : Action S (list Memo.t) :=
  try_catch
    (let searchPattern := "%" +:+ query +:+ "%" in
     q ← supabase.from "memos"
         |> supabase.select (Some memo_columns)
         |> supabase.or ("title.ilike." +:+ searchPattern
                         +:+ ",content.ilike." +:+ searchPattern)
         |> supabase.order "created_at" false;
     r ← await_rows q;
     match error r with
     | Some error =>
         console_error "Error searching memos:" (ErrPostgrest error);;
         throw (ErrPostgrest error)
     | None =>
         match data r with
         | None => mret []
         | Some data =>
             let filteredData :=
               filter
                 (λ memo : MemoRow.t,
                 let matchesTitle :=
                   includes (toLowerCase (MemoRow.title memo)) (toLowerCase query) in
                 let matchesContent :=
                   includes (toLowerCase (MemoRow.content memo)) (toLowerCase query) in
                 let matchesTags :=
                   (λ tags, existsb (λ tag,
                      includes (toLowerCase tag) (toLowerCase query)) tags)
                   <$> MemoRow.tags memo in
                 Is_true (matchesTitle || matchesContent || truthy matchesTags))
                 data in
             mret ((λ memo, {| Memo.id := MemoRow.id memo;
                                    Memo.title := MemoRow.title memo;
                                    Memo.content := MemoRow.content memo;
                                    Memo.category := MemoRow.category memo;
                                    Memo.tags := nullish (MemoRow.tags memo) [];
                                    Memo.createdAt := MemoRow.created_at memo;
                                    Memo.updatedAt := MemoRow.updated_at memo |}) <$> filteredData)
         end
     end)
    (λ error, console_error "Failed to search memos:" error;; mret []).

Definition getMemosByCategory (category : string) : Action S (list Memo.t) :=
  try_catch
    (query ← supabase.from "memos"
         |> supabase.select (Some memo_columns)
         |> supabase.order "created_at" false;
     query ← (if decide (category ≠ "all")
              then supabase.eq "category" category query
              else mret query);
     r ← await_rows query;
     match error r with
     | Some error =>
         console_error "Error fetching memos by category:" (ErrPostgrest error);;
         throw (ErrPostgrest error)
     | None =>
         match data r with
         | None => mret []
         | Some data =>
             mret ((λ memo, {| Memo.id := MemoRow.id memo;
                                    Memo.title := MemoRow.title memo;
                                    Memo.content := MemoRow.content memo;
                                    Memo.category := MemoRow.category memo;
                                    Memo.tags := nullish (MemoRow.tags memo) [];
                                    Memo.createdAt := MemoRow.created_at memo;
                                    Memo.updatedAt := MemoRow.updated_at memo |}) <$> data)
         end
     end)
    (λ error,
       console_error "Failed to fetch memos by category:" error;; mret []).

End actions.
End Memos.

(** ** The actions of the second version of the module

    The same seven actions, with [select('*')], [data || []] in place of the
    early return, [||] in place of [??], and a filter added to the builder
    without rebinding it. *)
Module Part000.
Section actions.
Context {S : Type} `{StorageClient S}.

Definition getMemos : Action S (list Memo.t) :=
  try_catch
    (query ← supabase.from "memos"
         |> supabase.select (Some "*")
         |> supabase.order "created_at" false;
     r ← await_rows query;
     match error r with
     | Some error =>
         console_error "Error fetching memos:" (ErrPostgrest error);;
         throw (ErrPostgrest error)
     | None =>
         mret ((λ memo, {| Memo.id := MemoRow.id memo;
                            Memo.title := MemoRow.title memo;
                            Memo.content := MemoRow.content memo;
                            Memo.category := MemoRow.category memo;
                            Memo.tags := or_array (MemoRow.tags memo) [];
                            Memo.createdAt := MemoRow.created_at memo;
                            Memo.updatedAt := MemoRow.updated_at memo |}) <$> or_array (data r) [])
     end)
    (λ error, console_error "Failed to fetch memos:" error;; mret []).

Definition getMemoById (id : string) : Action S (option Memo.t) :=
  try_catch
    (query ← supabase.from "memos"
         |> supabase.select (Some "*")
         |> supabase.eq "id" id
         |> supabase.single;
     r ← await_row query;
     match error r with
     | Some error =>
         console_error "Error fetching memo:" (ErrPostgrest error);;
         mret None
     | None =>
         match data r with
         | None => mret None
         | Some data =>
             mret (Some {| Memo.id := MemoRow.id data;
                           Memo.title := MemoRow.title data;
                           Memo.content := MemoRow.content data;
                           Memo.category := MemoRow.category data;
                           Memo.tags := or_array (MemoRow.tags data) [];
                           Memo.createdAt := MemoRow.created_at data;
                           Memo.updatedAt := MemoRow.updated_at data |})
         end
     end)
    (λ error, console_error "Failed to fetch memo:" error;; mret None).

Definition createMemo (formData : MemoFormData.t) : Action S (option Memo.t) :=
  try_catch
    (query ← supabase.from "memos"
         |> supabase.insert
              {| p_title := MemoFormData.title formData;
                 p_content := MemoFormData.content formData;
                 p_category := MemoFormData.category formData;
                 p_tags := or_array (MemoFormData.tags formData) [] |}
         |> supabase.select None
         |> supabase.single;
     r ← await_row query;
     match error r with
     | Some error =>
         console_error "Error creating memo:" (ErrPostgrest error);;
         throw (ErrPostgrest error)
     | None =>
         match data r with
         | None =>
             throw (ErrType "Cannot read properties of null (reading 'id')")
         | Some data =>
             let memo :=
               {| Memo.id := MemoRow.id data;
                  Memo.title := MemoRow.title data;
                  Memo.content := MemoRow.content data;
                  Memo.category := MemoRow.category data;
                  Memo.tags := or_array (MemoRow.tags data) [];
                  Memo.createdAt := MemoRow.created_at data;
                  Memo.updatedAt := MemoRow.updated_at data |} in
             revalidatePath "/";;
             mret (Some memo)
         end
     end)
    (λ error, console_error "Failed to create memo:" error;; mret None).

Definition updateMemo (id : string) (formData : MemoFormData.t)
  : Action S (option Memo.t) :=
  try_catch
    (query ← supabase.from "memos"
         |> supabase.update
              {| p_title := MemoFormData.title formData;
                 p_content := MemoFormData.content formData;
                 p_category := MemoFormData.category formData;
                 p_tags := or_array (MemoFormData.tags formData) [] |}
         |> supabase.eq "id" id
         |> supabase.select None
         |> supabase.single;
     r ← await_row query;
     match error r with
     | Some error =>
         console_error "Error updating memo:" (ErrPostgrest error);;
         throw (ErrPostgrest error)
     | None =>
         match data r with
         | None => mret None
         | Some data =>
             let memo :=
               {| Memo.id := MemoRow.id data;
                  Memo.title := MemoRow.title data;
                  Memo.content := MemoRow.content data;
                  Memo.category := MemoRow.category data;
                  Memo.tags := or_array (MemoRow.tags data) [];
                  Memo.createdAt := MemoRow.created_at data;
                  Memo.updatedAt := MemoRow.updated_at data |} in
             revalidatePath "/";;
             mret (Some memo)
         end
     end)
    (λ error, console_error "Failed to update memo:" error;; mret None).

Definition deleteMemo (id : string) : Action S bool :=
  try_catch
    (query ← supabase.from "memos" |> supabase.delete |> supabase.eq "id" id;
     r ← await_rows query;
     match error r with
     | Some error =>
         console_error "Error deleting memo:" (ErrPostgrest error);;
         throw (ErrPostgrest error)
     | None =>
         revalidatePath "/";;
         mret true
     end)
    (λ error, console_error "Failed to delete memo:" error;; mret false).

Definition searchMemos (query : string) : Action S (list Memo.t) :=
  try_catch
    (let searchPattern := "%" +:+ query +:+ "%" in
     q ← supabase.from "memos"
         |> supabase.select (Some "*")
         |> supabase.or ("title.ilike." +:+ searchPattern
                         +:+ ",content.ilike." +:+ searchPattern)
         |> supabase.order "created_at" false;
     r ← await_rows q;
     match error r with
     | Some error =>
         console_error "Error searching memos:" (ErrPostgrest error);;
         throw (ErrPostgrest error)
     | None =>
         let filteredData :=
           filter
             (λ memo : MemoRow.t,
             let matchesTitle :=
               includes (toLowerCase (MemoRow.title memo)) (toLowerCase query) in
             let matchesContent :=
               includes (toLowerCase (MemoRow.content memo)) (toLowerCase query) in
             let matchesTags :=
               (λ tags, existsb (λ tag,
                  includes (toLowerCase tag) (toLowerCase query)) tags)
               <$> MemoRow.tags memo in
             Is_true (matchesTitle || matchesContent || truthy matchesTags))
             (or_array (data r) []) in
         mret ((λ memo, {| Memo.id := MemoRow.id memo;
                            Memo.title := MemoRow.title memo;
                            Memo.content := MemoRow.content memo;
                            Memo.category := MemoRow.category memo;
                            Memo.tags := or_array (MemoRow.tags memo) [];
                            Memo.createdAt := MemoRow.created_at memo;
                            Memo.updatedAt := MemoRow.updated_at memo |}) <$> filteredData)
     end)
    (λ error, console_error "Failed to search memos:" error;; mret []).

Definition getMemosByCategory (category : string) : Action S (list Memo.t) :=
  try_catch
    (query ← supabase.from "memos"
         |> supabase.select (Some "*")
         |> supabase.order "created_at" false;
     (if decide (category ≠ "all")
      then supabase.eq "category" category query;; mret tt
      else mret tt);;
     r ← await_rows query;
     match error r with
     | Some error =>
         console_error "Error fetching memos by category:" (ErrPostgrest error);;
         throw (ErrPostgrest error)
     | None =>
         mret ((λ memo, {| Memo.id := MemoRow.id memo;
                            Memo.title := MemoRow.title memo;
                            Memo.content := MemoRow.content memo;
                            Memo.category := MemoRow.category memo;
                            Memo.tags := or_array (MemoRow.tags memo) [];
                            Memo.createdAt := MemoRow.created_at memo;
                            Memo.updatedAt := MemoRow.updated_at memo |}) <$> or_array (data r) [])
     end)
    (λ error,
       console_error "Failed to fetch memos by category:" error;; mret []).

End actions.
End Part000.

(** ** The storage backend

    The database engine and its query service are outside the repository.
    Everything in this module is modelled from the description of the
    persisted schema and of the query capability the actions consume. *)
Module Postgres.

(** Modelled from the spec: the storage backend's state.  [memos] is the
    table the migration creates.  The values [gen_random_uuid()] and [now()]
    yield are inputs of the model: [uuid_at n] and [now_at n] are what the
    [n]-th write draws. *)
Record Db := {
  memos : list MemoRow.t;
  tick : nat;
  uuid_at : nat → string;
  now_at : nat → timestamptz
}.

(** Modelled from the spec: the columns a filter can name, the [UUID] and
    [TEXT] columns of the migration, compared as text.  For the [id] column
    this is the comparison of the [UUID] values when the operand and the
    stored ids are UUIDs as the storage prints them ([canonical_uuid]
    below); the backend rejects an operand that is no UUID, which the model
    leaves out. *)
Definition text_column (column : string) : option (MemoRow.t → string) :=
  if decide (column = "id") then Some MemoRow.id
  else if decide (column = "title") then Some MemoRow.title
  else if decide (column = "content") then Some MemoRow.content
  else if decide (column = "category") then Some MemoRow.category
  else None.

(** Modelled from the spec: the columns a sort can name, the [TIMESTAMPTZ]
    columns of the migration. *)
Definition time_column (column : string) : option (MemoRow.t → timestamptz) :=
  if decide (column = "created_at") then Some MemoRow.created_at
  else if decide (column = "updated_at") then Some MemoRow.updated_at
  else None.

(** Modelled from the spec: a [LIKE] pattern against a text.  [%] stands
    for any run of characters, [_] for any one character, and a backslash
    makes the character after it literal. *)
Fixpoint like (p : string) : string → bool :=
  match p with
  | EmptyString => λ t, match t with EmptyString => true | _ => false end
  | String c p' =>
      if decide (c = "%"%char) then
        fix any (t : string) : bool :=
          like p' t
          || match t with
             | EmptyString => false
             | String _ t' => any t'
             end
      else if decide (c = "_"%char) then
        λ t, match t with
             | EmptyString => false
             | String _ t' => like p' t'
             end
      else if decide (c = "092"%char) then
        match p' with
        | EmptyString => λ _, false
        | String c' p'' =>
            λ t, match t with
                 | EmptyString => false
                 | String d t' => bool_decide (c' = d) && like p'' t'
                 end
        end
      else
        λ t, match t with
             | EmptyString => false
             | String d t' => bool_decide (c = d) && like p' t'
             end
  end.

(** Modelled from the spec: a pattern the backend accepts does not end in
    the middle of an escape. *)
Fixpoint pattern_ok (p : string) : bool :=
  match p with
  | EmptyString => true
  | String c p' =>
      if decide (c = "092"%char) then
        match p' with
        | EmptyString => false
        | String _ p'' => pattern_ok p''
        end
      else pattern_ok p'
  end.

(** Modelled from the spec: in the operand of a pattern operator the query
    service reads [*] as [%]. *)
Fixpoint star (s : string) : string :=
  match s with
  | EmptyString => EmptyString
  | String c s' =>
      String (if decide (c = "*"%char) then "%"%char else c) (star s')
  end.

(** Modelled from the spec: the case-insensitive pattern filter: [LIKE]
    with pattern and text both in lower case. *)
Definition ilike (column : MemoRow.t → string) (pattern : string)
    (r : MemoRow.t) : bool :=
  like (toLowerCase (star pattern)) (toLowerCase (column r)).

(** Modelled from the spec: the pieces of [s] between the separators. *)
Fixpoint split_on (sep : ascii) (s : string) : list string :=
  match s with
  | EmptyString => [EmptyString]
  | String c s' =>
      if decide (c = sep) then EmptyString :: split_on sep s'
      else match split_on sep s' with
           | piece :: pieces => String c piece :: pieces
           | [] => [String c EmptyString]
           end
  end.

(** Modelled from the spec: [s] cut at its first separator. *)
Fixpoint cut_at (sep : ascii) (s : string) : option (string * string) :=
  match s with
  | EmptyString => None
  | String c s' =>
      if decide (c = sep) then Some (EmptyString, s')
      else '(before, after) ← cut_at sep s'; Some (String c before, after)
  end.

(** Modelled from the spec: a term [column.operator.operand]; the operand
    is what follows the second dot. *)
Definition parse_condition (term : string) : option Condition :=
  '(column, rest) ← cut_at "."%char term;
  '(operator, operand) ← cut_at "."%char rest;
  Some {| cond_column := column; cond_operator := operator;
          cond_operand := operand |}.

(** Modelled from the spec: the characters that group and quote in a filter
    string. *)
Definition grouping (c : ascii) : bool :=
  bool_decide (c = "("%char) || bool_decide (c = ")"%char)
  || bool_decide (c = "034"%char).

(** Modelled from the spec: the terms of a filter string, which commas
    separate.  Strings with parentheses or double quotes, which group and
    quote, are outside the model: it reports them malformed. *)
Definition parse_filters (filters : string) : option (list Condition) :=
  if all_chars (λ c, negb (grouping c)) filters
  then mapM parse_condition (split_on ","%char filters)
  else None.

(** Modelled from the spec: one term of a logical OR; [None] when the
    backend rejects the term.  The operators of the model are the pattern
    filter and the equality, on the text columns. *)
Definition condition_holds (c : Condition) : option (MemoRow.t → bool) :=
  column ← text_column (cond_column c);
  if decide (cond_operator c = "ilike") then
    if pattern_ok (star (cond_operand c))
    then Some (ilike column (cond_operand c))
    else None
  else if decide (cond_operator c = "eq") then
    Some (λ r, bool_decide (column r = cond_operand c))
  else None.

(** Modelled from the spec: the equality filter and the logical OR. *)
Definition filter_holds (f : Filter) : option (MemoRow.t → bool) :=
  match f with
  | FilterEq column value =>
      col ← text_column column;
      Some (λ r, bool_decide (col r = value))
  | FilterOr filters =>
      conditions ← parse_filters filters;
      terms ← mapM condition_holds conditions;
      Some (λ r, existsb (λ term : MemoRow.t → bool, term r) terms)
  end.

(** Modelled from the spec: the filters of a request, all of which a row
    has to pass. *)
Definition where_clause (fs : list Filter) : option (MemoRow.t → bool) :=
  tests ← mapM filter_holds fs;
  Some (λ r, forallb (λ test : MemoRow.t → bool, test r) tests).

(** Modelled from the spec: the two directions of a sort by a timestamp. *)
Definition ascending_by (key : MemoRow.t → timestamptz) : relation MemoRow.t :=
  λ a b, (key a ≤ key b)%Z.

Definition descending_by (key : MemoRow.t → timestamptz) : relation MemoRow.t :=
  λ a b, (key b ≤ key a)%Z.

(** Modelled from the spec: the two directions are decidable. *)
#[global] Instance ascending_by_dec key : RelDecision (ascending_by key) :=
  λ a b, decide (key a ≤ key b)%Z.

#[global] Instance descending_by_dec key : RelDecision (descending_by key) :=
  λ a b, decide (key b ≤ key a)%Z.

(** Modelled from the spec: the sort by a timestamp, ascending or
    descending. *)
Definition order_by (o : Ordering) (rows : list MemoRow.t)
  : option (list MemoRow.t) :=
  key ← time_column (ord_column o);
  Some (if ascending o
        then merge_sort (ascending_by key) rows
        else merge_sort (descending_by key) rows).

(** Modelled from the spec: the rows in descending order of [created_at]. *)
Definition newest (rows : list MemoRow.t) : list MemoRow.t :=
  merge_sort (descending_by MemoRow.created_at) rows.

(** Modelled from the spec: several sort keys, the first the most
    significant. *)
Definition order_rows (os : list Ordering) (rows : list MemoRow.t)
  : option (list MemoRow.t) :=
  foldr (λ o sorted, sorted ≫= order_by o) (Some rows) os.

(** Modelled from the spec: the errors the backend reports; the actions
    look at no field of an error. *)
Definition bad_request : PostgrestError :=
  {| message := "failed to parse the request"; code := "PGRST100" |}.

Definition undefined_table : PostgrestError :=
  {| message := "relation does not exist"; code := "42P01" |}.

Definition unique_violation : PostgrestError :=
  {| message := "duplicate key value violates unique constraint";
     code := "23505" |}.

Definition not_a_single_row : PostgrestError :=
  {| message := "JSON object requested, multiple (or no) rows returned";
     code := "PGRST116" |}.

(** Modelled from the spec: the row an insert stores.  [id] and the two
    timestamps come from the column defaults of the migration
    ([gen_random_uuid()], [NOW()]), [category] too ('personal') when the
    request leaves it out. *)
Definition inserted_row (db : Db) (v : Payload) : MemoRow.t :=
  {| MemoRow.id := uuid_at db (tick db);
     MemoRow.title := p_title v;
     MemoRow.content := p_content v;
     MemoRow.category := nullish (p_category v) "personal";
     MemoRow.tags := Some (p_tags v);
     MemoRow.created_at := now_at db (tick db);
     MemoRow.updated_at := now_at db (tick db) |}.

(** Modelled from the spec: the row an update leaves; the trigger of the
    migration refreshes [updated_at]. *)
Definition updated_row (db : Db) (v : Payload) (r : MemoRow.t) : MemoRow.t :=
  {| MemoRow.id := MemoRow.id r;
     MemoRow.title := p_title v;
     MemoRow.content := p_content v;
     MemoRow.category := nullish (p_category v) (MemoRow.category r);
     MemoRow.tags := Some (p_tags v);
     MemoRow.created_at := MemoRow.created_at r;
     MemoRow.updated_at := now_at db (tick db) |}.

(** Modelled from the spec: the state after a write. *)
Definition write (rows : list MemoRow.t) (db : Db) : Db :=
  {| memos := rows; tick := S (tick db);
     uuid_at := uuid_at db; now_at := now_at db |}.

(** Modelled from the spec: one request against the table.  The result is
    the rows the statement selects or writes and the table afterwards, or
    the error the backend reports; an insert that would repeat an [id]
    violates the primary key. *)
Definition execute (b : Builder) (db : Db)
  : PostgrestError + (list MemoRow.t * Db) :=
  if decide (b_table b = "memos") then
    match where_clause (b_filters b) with
    | None => inl bad_request
    | Some keep =>
        match b_verb b with
        | None => inl bad_request
        | Some SelectRows =>
            match order_rows (b_order b) (filter (λ r, Is_true (keep r)) (memos db)) with
            | None => inl bad_request
            | Some rows => inr (rows, db)
            end
        | Some (InsertRow v) =>
            let row := inserted_row db v in
            if decide (MemoRow.id row ∈ MemoRow.id <$> memos db)
            then inl unique_violation
            else inr ([row], write (memos db ++ [row]) db)
        | Some (UpdateRows v) =>
            inr (updated_row db v <$> filter (λ r, Is_true (keep r)) (memos db),
                 write ((λ r, if keep r then updated_row db v r else r)
                          <$> memos db) db)
        | Some DeleteRows =>
            inr (filter (λ r, Is_true (keep r)) (memos db),
                 write (filter (λ r, ¬ Is_true (keep r)) (memos db)) db)
        end
    end
  else inl undefined_table.

(** Modelled from the spec: the rows a request hands back, none unless the
    request has a select list. *)
Definition representation (b : Builder) (rows : list MemoRow.t)
  : option (list MemoRow.t) :=
  match b_columns b with
  | Some _ => Some rows
  | None => None
  end.

(** Modelled from the spec: bulk select and the writes. *)
Definition pg_rows (b : Builder) (db : Db) : Settled (list MemoRow.t) * Db :=
  match execute b db with
  | inl e => (Fulfilled {| data := None; error := Some e |}, db)
  | inr (rows, db') =>
      (Fulfilled {| data := representation b rows; error := None |}, db')
  end.

(** Modelled from the spec: the single-row fetch; anything but one row is an
    error and leaves the table as it was. *)
Definition pg_row (b : Builder) (db : Db) : Settled MemoRow.t * Db :=
  match execute b db with
  | inl e => (Fulfilled {| data := None; error := Some e |}, db)
  | inr (rows, db') =>
      match representation b rows with
      | Some [r] => (Fulfilled {| data := Some r; error := None |}, db')
      | _ => (Fulfilled {| data := None; error := Some not_a_single_row |}, db)
      end
  end.

(** Modelled from the spec: the storage client of a reachable backend. *)
#[global] Instance client : StorageClient Db :=
  {| request_rows := pg_rows; request_row := pg_row |}.

(** A server action starts with no builder alive. *)
Definition connect (db : Db) : World Db := {| storage := db; heap := [] |}.

End Postgres.

(** ** The requests of the writes and of the fetch by id *)

(** [from('memos').delete().eq('id', id)] *)
Definition delete_request (id : string) : Builder :=
  {| b_table := "memos"; b_verb := Some DeleteRows; b_columns := None;
     b_filters := [FilterEq "id" id]; b_order := []; b_single := false |}.

(** [from('memos').insert(values).select(columns).single()] *)
Definition insert_request (values : Payload) (columns : string) : Builder :=
  {| b_table := "memos"; b_verb := Some (InsertRow values);
     b_columns := Some columns; b_filters := []; b_order := [];
     b_single := true |}.

(** [from('memos').select(columns).eq('id', id).single()] *)
Definition fetch_request (id : string) (columns : string) : Builder :=
  {| b_table := "memos"; b_verb := Some SelectRows;
     b_columns := Some columns; b_filters := [FilterEq "id" id];
     b_order := []; b_single := true |}.

(** ** What a run shows *)

(** The [Memo] every action presents a row as. *)
Definition to_memo (memo : MemoRow.t) : Memo.t :=
  {| Memo.id := MemoRow.id memo;
     Memo.title := MemoRow.title memo;
     Memo.content := MemoRow.content memo;
     Memo.category := MemoRow.category memo;
     Memo.tags := nullish (MemoRow.tags memo) [];
     Memo.createdAt := MemoRow.created_at memo;
     Memo.updatedAt := MemoRow.updated_at memo |}.

Definition settled_failed {D} (settled : Settled D) : bool :=
  match settled with
  | Fulfilled r => bool_decide (is_Some (error r))
  | Rejected _ => true
  end.

(** A request of the run met a storage failure: the client reported an
    error, or the request was rejected. *)
Definition storage_failed (evs : list Event) : bool :=
  existsb (λ ev,
    match ev with
    | Requested _ (Rows settled) => settled_failed settled
    | Requested _ (Row settled) => settled_failed settled
    | _ => false
    end) evs.

(** The requests a run sent, in order. *)
Definition queries (evs : list Event) : list Builder :=
  omap (λ ev, match ev with Requested b _ => Some b | _ => None end) evs.

(** The paths a run invalidated, in order. *)
Definition revalidations (evs : list Event) : list string :=
  omap (λ ev, match ev with Revalidated path => Some path | _ => None end) evs.

(** The rows the client handed to the run. *)
Definition delivered (evs : list Event) : list MemoRow.t :=
  evs ≫= λ ev,
    match ev with
    | Requested _ (Rows (Fulfilled r)) => nullish (data r) []
    | Requested _ (Row (Fulfilled r)) => option_list (data r)
    | _ => []
    end.

(** The memos a caller gets to see. *)
Definition returned_list (c : Completion (list Memo.t)) : list Memo.t :=
  match c with
  | Return l => l
  | Throw _ => []
  end.

Definition returned_option (c : Completion (option Memo.t)) : list Memo.t :=
  match c with
  | Return o => option_list o
  | Throw _ => []
  end.

(** The error policy: the run returns, and returns [sentinel] when storage
    failed. *)
Definition swallows {S A} (r : Run S A) (sentinel : A) : Prop :=
  (∃ a, outcome r = Return a) ∧
  (storage_failed (events r) = true → outcome r = Return sentinel).

(** A memo carries the fields of [row], with absent tags made the empty
    sequence. *)
Definition presents (row : MemoRow.t) (m : Memo.t) : Prop :=
  m = to_memo row ∧
  Memo.tags m = match MemoRow.tags row with Some ts => ts | None => [] end.

(** The request [b] with the explicit select list written as [*]. *)
Definition widen (b : Builder) : Builder :=
  if decide (b_columns b = Some memo_columns)
  then {| b_table := b_table b; b_verb := b_verb b; b_columns := Some "*";
          b_filters := b_filters b; b_order := b_order b;
          b_single := b_single b |}
  else b.

(** A client that answers the two spellings of the select list alike. *)
Definition select_spelling_irrelevant (S : Type) `{StorageClient S} : Prop :=
  ∀ b s, request_rows (widen b) s = request_rows b s ∧
         request_row (widen b) s = request_row b s.

(** Two runs a caller and the storage cannot tell apart, the spelling of the
    select list aside. *)
Definition same_behaviour {S A} (r1 r2 : Run S A) : Prop :=
  outcome r1 = outcome r2 ∧
  storage (final r1) = storage (final r2) ∧
  revalidations (events r1) = revalidations (events r2) ∧
  widen <$> queries (events r1) = queries (events r2).

(** Every memo the run shows its caller presents a row the client
    delivered to the run. *)
Definition presents_delivered {S A} (shown : Completion A → list Memo.t)
    (r : Run S A) : Prop :=
  ∀ m, m ∈ shown (outcome r) →
       ∃ row, row ∈ delivered (events r) ∧ presents row m.

(** Memos in descending order of [createdAt], strictly. *)
Definition newest_first : relation Memo.t :=
  λ a b, Memo.createdAt b < Memo.createdAt a.

(** ** Sample data *)
Module Sample.

Definition milk : MemoRow.t :=
  {| MemoRow.id := "m1"; MemoRow.title := "Buy milk";
     MemoRow.content := "at the store"; MemoRow.category := "todo";
     MemoRow.tags := Some []; MemoRow.created_at := 10;
     MemoRow.updated_at := 10 |}.

Definition urgent : MemoRow.t :=
  {| MemoRow.id := "m2"; MemoRow.title := "x"; MemoRow.content := "y";
     MemoRow.category := "personal"; MemoRow.tags := Some ["urgent"];
     MemoRow.created_at := 20; MemoRow.updated_at := 20 |}.

Definition untagged : MemoRow.t :=
  {| MemoRow.id := "m3"; MemoRow.title := "Zed";
     MemoRow.content := "milky way"; MemoRow.category := "todo";
     MemoRow.tags := None; MemoRow.created_at := 15;
     MemoRow.updated_at := 30 |}.

Definition db : Postgres.Db :=
  {| Postgres.memos := [milk; urgent; untagged];
     Postgres.tick := 0%nat;
     Postgres.uuid_at := λ _, "m4";
     Postgres.now_at := λ n, 100 + Z.of_nat n |}.

Definition only_urgent : Postgres.Db :=
  {| Postgres.memos := [urgent];
     Postgres.tick := 0%nat;
     Postgres.uuid_at := λ _, "m4";
     Postgres.now_at := λ n, 100 + Z.of_nat n |}.

Definition formData : MemoFormData.t :=
  {| MemoFormData.title := "Call home"; MemoFormData.content := "tonight";
     MemoFormData.category := None; MemoFormData.tags := None |}.

(** A client that cannot reach its backend: every request is rejected. *)
Definition unreachable : StorageClient unit :=
  {| request_rows := λ _ s, (Rejected (ErrFetch "fetch failed"), s);
     request_row := λ _ s, (Rejected (ErrFetch "fetch failed"), s) |}.

(** A client with the same answer to every request. *)
Definition canned (rows : Settled (list MemoRow.t)) (row : Settled MemoRow.t)
  : StorageClient unit :=
  {| request_rows := λ _ s, (rows, s); request_row := λ _ s, (row, s) |}.

Definition start : World unit := {| storage := tt; heap := [] |}.

End Sample.

(** ** The inputs the model of the search is faithful on *)

(** The string is made of ASCII characters, on which the case folding of
    the actions and that of the storage are the folding of [toLowerCase]. *)
Definition is_ascii (s : string) : bool :=
  all_chars (λ c, (nat_of_ascii c <? 128)%nat) s.

(** The title, the content and the tags of the row are ASCII strings. *)
Definition ascii_row (r : MemoRow.t) : bool :=
  is_ascii (MemoRow.title r) && is_ascii (MemoRow.content r)
  && match MemoRow.tags r with
     | Some tags => forallb is_ascii tags
     | None => true
     end.

(** The characters of a pattern that do not stand for themselves. *)
Definition wild (c : ascii) : bool :=
  bool_decide (c = "%"%char) || bool_decide (c = "_"%char)
  || bool_decide (c = "*"%char) || bool_decide (c = "092"%char).

(** A query the search passes to the storage unharmed: it has no character
    that a pattern or a filter string reads as anything but itself (the
    wildcards, the backslash, the comma, the parentheses and the double
    quote). *)
Definition plain_query (q : string) : bool :=
  all_chars (λ c, negb (wild c) && negb (bool_decide (c = ","%char))
                  && negb (Postgres.grouping c)) q.

(** The filter string [searchMemos] makes of a query. *)
Definition search_filters (query : string) : string :=
  "title.ilike." +:+ ("%" +:+ query +:+ "%")
  +:+ ",content.ilike." +:+ ("%" +:+ query +:+ "%").

(** The rows the modelled backend selects for the request of a search, none
    when it finds the filter string malformed. *)
Definition search_selection (query : string) (db : Postgres.Db)
  : list MemoRow.t :=
  match Postgres.where_clause [FilterOr (search_filters query)] with
  | Some keep =>
      Postgres.newest (filter (λ r, Is_true (keep r)) (Postgres.memos db))
  | None => []
  end.

(** [n] lower-case hexadecimal digits at the head of [s], and what follows
    them. *)
Fixpoint hex_digits (n : nat) (s : string) : option string :=
  match n with
  | O => Some s
  | S n' =>
      match s with
      | EmptyString => None
      | String c s' =>
          let k := nat_of_ascii c in
          if ((48 <=? k) && (k <=? 57) || (97 <=? k) && (k <=? 102))%nat
          then hex_digits n' s'
          else None
      end
  end.

(** The string is a UUID as the storage prints it: groups of 8, 4, 4, 4
    and 12 lower-case hexadecimal digits with hyphens between them.  On
    such strings equality of the [UUID] values is equality of the text. *)
Definition canonical_uuid (s : string) : bool :=
  match hex_digits 8 s with
  | Some (String "-" s1) =>
      match hex_digits 4 s1 with
      | Some (String "-" s2) =>
          match hex_digits 4 s2 with
          | Some (String "-" s3) =>
              match hex_digits 4 s3 with
              | Some (String "-" s4) =>
                  match hex_digits 12 s4 with
                  | Some EmptyString => true
                  | _ => false
                  end
              | _ => false
              end
          | _ => false
          end
      | _ => false
      end
  | _ => false
  end.

(** The given id and the ids of the stored rows are UUIDs as the storage
    prints them. *)
Definition uuid_ids (id : string) (db : Postgres.Db) : Prop :=
  canonical_uuid id = true ∧
  Forall (λ r, canonical_uuid (MemoRow.id r) = true) (Postgres.memos db).

(** ** Further observations of a run *)

(** What a run wrote with [console.error], in order. *)
Definition logged (evs : list Event) : list (string * JsError) :=
  omap (λ ev, match ev with Logged label e => Some (label, e) | _ => None end)
       evs.

(** The errors the client reported in its responses to the run. *)
Definition reported_errors (evs : list Event) : list PostgrestError :=
  evs ≫= λ ev,
    match ev with
    | Requested _ (Rows (Fulfilled r)) => option_list (error r)
    | Requested _ (Row (Fulfilled r)) => option_list (error r)
    | _ => []
    end.

(** The rejections the run met when it awaited a request. *)
Definition rejections (evs : list Event) : list JsError :=
  evs ≫= λ ev,
    match ev with
    | Requested _ (Rows (Rejected e)) => [e]
    | Requested _ (Row (Rejected e)) => [e]
    | _ => []
    end.

(** The log of an action that writes the labels [on_error], in order, for
    an error reported in a response, and the label [on_rejection] for a
    rejection. *)
Definition expected_log (on_error : list string) (on_rejection : string)
    (evs : list Event) : list (string * JsError) :=
  (reported_errors evs ≫= λ e, (λ label, (label, ErrPostgrest e)) <$> on_error)
  ++ ((λ e, (on_rejection, e)) <$> rejections evs).

(** The run sent one request, and sent it to the table [memos]. *)
Definition one_request {S A} (r : Run S A) : Prop :=
  ∃ b, queries (events r) = [b] ∧ b_table b = "memos".

(** The test the search applies to a row the storage delivered: the query
    occurs in the title, in the content or in one of the tags, letter case
    ignored; a row without tags has no tag to match. *)
Definition matches (query : string) (memo : MemoRow.t) : bool :=
  includes (toLowerCase (MemoRow.title memo)) (toLowerCase query)
  || includes (toLowerCase (MemoRow.content memo)) (toLowerCase query)
  || match MemoRow.tags memo with
     | Some tags =>
         existsb (λ tag, includes (toLowerCase tag) (toLowerCase query)) tags
     | None => false
     end.

(** A write came back with what it reports as success. *)
Definition wrote_memo (c : Completion (option Memo.t)) : bool :=
  match c with
  | Return (Some _) => true
  | _ => false
  end.

Definition deleted (c : Completion bool) : bool :=
  match c with
  | Return true => true
  | _ => false
  end.

(** The values [createMemo] and [updateMemo] make of the form data. *)
Definition form_values (formData : MemoFormData.t) : Payload :=
  {| p_title := MemoFormData.title formData;
     p_content := MemoFormData.content formData;
     p_category := MemoFormData.category formData;
     p_tags := or_array (MemoFormData.tags formData) [] |}.

(** [from('memos').update(values).eq('id', id).select(columns).single()] *)
Definition update_request (id : string) (values : Payload) (columns : string)
  : Builder :=
  {| b_table := "memos"; b_verb := Some (UpdateRows values);
     b_columns := Some columns; b_filters := [FilterEq "id" id];
     b_order := []; b_single := true |}.

(** The log entry of the second version's [createMemo] when the response
    holds neither a row nor an error: reading [data.id] throws. *)
Definition null_data_log : string * JsError :=
  ("Failed to create memo:",
   ErrType "Cannot read properties of null (reading 'id')").

(** More sample data. *)
Module Fixture.

Definition edit : MemoFormData.t :=
  {| MemoFormData.title := "Buy oat milk"; MemoFormData.content := "two";
     MemoFormData.category := None; MemoFormData.tags := Some ["shop"] |}.

(** A client that reports the same error for every request. *)
Definition failing : StorageClient unit :=
  Sample.canned
    (Fulfilled {| data := None;
                  error := Some {| message := "timeout"; code := "57014" |} |})
    (Fulfilled {| data := None;
                  error := Some {| message := "timeout"; code := "57014" |} |}).

(** A client whose responses hold neither data nor an error. *)
Definition hollow : StorageClient unit :=
  Sample.canned (Fulfilled {| data := None; error := None |})
                (Fulfilled {| data := None; error := None |}).

(** A client that delivers two rows of the sample store. *)
Definition delivering : StorageClient unit :=
  Sample.canned
    (Fulfilled {| data := Some [Sample.urgent; Sample.untagged];
                  error := None |})
    (Fulfilled {| data := Some Sample.milk; error := None |}).

(** A memo whose tag holds an underscore, and a store with that memo. *)
Definition snake : MemoRow.t :=
  {| MemoRow.id := "0b6f1f3a-5c1d-4e2a-9f30-1a2b3c4d5e01";
     MemoRow.title := "x"; MemoRow.content := "y";
     MemoRow.category := "personal"; MemoRow.tags := Some ["a_b"];
     MemoRow.created_at := 40; MemoRow.updated_at := 40 |}.


(** A store whose ids are UUIDs, and a UUID it does not hold. *)
Definition groceries : MemoRow.t :=
  {| MemoRow.id := "0b6f1f3a-5c1d-4e2a-9f30-1a2b3c4d5e02";
     MemoRow.title := "Groceries"; MemoRow.content := "oat milk";
     MemoRow.category := "todo"; MemoRow.tags := None;
     MemoRow.created_at := 50; MemoRow.updated_at := 50 |}.

Definition uuid_db : Postgres.Db :=
  {| Postgres.memos := [snake; groceries];
     Postgres.tick := 0%nat;
     Postgres.uuid_at := λ _, "0b6f1f3a-5c1d-4e2a-9f30-1a2b3c4d5e09";
     Postgres.now_at := λ n, 100 + Z.of_nat n |}.

Definition absent_id : string := "0b6f1f3a-5c1d-4e2a-9f30-1a2b3c4d5eff".

End Fixture.

(** * Properties *)

(** ** Substring search *)

Lemma prefix_app (q t : string) : String.prefix q (q +:+ t) = true.
Proof.
  induction q as [|c q IH]; simpl.
  - by destruct t.
  - destruct (ascii_dec c c); [done | congruence].
Qed.

Lemma prefix_inv (q s : string) :
  String.prefix q s = true → ∃ t, s = q +:+ t.
Proof.
  revert s; induction q as [|c q IH]; intros s Hp; simpl in *.
  - by exists s.
  - destruct s as [|c' s]; [done|].
    simpl in Hp. revert Hp.
    destruct (ascii_dec c c') as [->|]; [|done]. intros Hp.
    destruct (IH _ Hp) as [t ->]. by exists t.
Qed.

(** [includes] is the substring test. *)
Lemma includes_spec (s q : string) :
  includes s q = true ↔ ∃ a b, s = a +:+ q +:+ b.
Proof.
  split.
  - induction s as [|c s IH]; cbn [includes]; intros Hi.
    + rewrite orb_false_r in Hi. destruct (prefix_inv _ _ Hi) as [t Ht].
      by exists "", t.
    + apply orb_true_iff in Hi as [Hi|Hi].
      * destruct (prefix_inv _ _ Hi) as [t Ht]. by exists "", t.
      * destruct (IH Hi) as (a & b & ->). by exists (String c a), b.
  - intros (a & b & ->). induction a as [|c a IH].
    + change ("" +:+ q +:+ b) with (q +:+ b).
      destruct (q +:+ b) eqn:E; cbn [includes]; rewrite <- E, prefix_app; done.
    + change (String c a +:+ q +:+ b) with (String c (a +:+ q +:+ b)).
      cbn [includes]. by rewrite IH, orb_true_r.
Qed.

Lemma includes_empty (s : string) : includes s "" = true.
Proof. by destruct s. Qed.

(** ** Query builders on the heap *)

Lemma heap_lookup_last (h : list Builder) (b : Builder) :
  (h ++ [b]) !! length h = Some b.
Proof. by apply list_lookup_middle. Qed.

Lemma heap_insert_last (h : list Builder) (b b' : Builder) :
  <[length h := b']> (h ++ [b]) = h ++ [b'].
Proof. rewrite insert_app_r_alt by lia. by rewrite Nat.sub_diag. Qed.

(** A chained method on the builder made last updates it in place. *)
Lemma chain_last {S} (f : Builder → Builder) (s : S) h b :
  chain f (length h) {| storage := s; heap := h ++ [b] |}
  = {| outcome := Return (length h);
       final := {| storage := s; heap := h ++ [f b] |}; events := [] |}.
Proof.
  unfold chain; cbn [heap storage]. rewrite heap_lookup_last.
  unfold set_heap; cbn [heap storage]. by rewrite heap_insert_last.
Qed.

Lemma await_rows_last {S} `{StorageClient S} (s : S) h b :
  await_rows (length h) {| storage := s; heap := h ++ [b] |}
  = settle Rows b (h ++ [b]) (request_rows b s).1 (request_rows b s).2.
Proof. unfold await_rows; cbn [heap storage]. by rewrite heap_lookup_last. Qed.

Lemma await_row_last {S} `{StorageClient S} (s : S) h b :
  await_row (length h) {| storage := s; heap := h ++ [b] |}
  = settle Row b (h ++ [b]) (request_row b s).1 (request_row b s).2.
Proof. unfold await_row; cbn [heap storage]. by rewrite heap_lookup_last. Qed.

(** Symbolic execution of an action up to the reply of the client. *)
Ltac unfold_action :=
  unfold try_catch, mbind, action_bind, bind, mret, action_ret, ret, throw,
    console_error, revalidatePath, emit, supabase.from, supabase.select,
    supabase.insert, supabase.update, supabase.delete, supabase.eq,
    supabase.or, supabase.order, supabase.single, set_heap, set_storage,
    with_verb, with_filter.

Ltac run :=
  unfold_action;
  repeat (cbn [bind_on catch_on prepend settle outcome final events heap
               storage fst snd app error data b_table b_verb b_columns
               b_filters b_order b_single nullish with_verb with_filter
               length];
          rewrite ?chain_last, ?await_rows_last, ?await_row_last).

Ltac finish_run :=
  run; cbn -[toLowerCase includes request_rows request_row].

(** The cases of a reply: rows or none, an error or none, or a rejection. *)
Ltac reply_cases :=
  match goal with
  | |- context [request_rows ?b ?s] =>
      destruct (request_rows b s) as [[[[?|] [?|]]|?] ?]
  | |- context [request_row ?b ?s] =>
      destruct (request_row b s) as [[[[?|] [?|]]|?] ?]
  end.

(** ** The error policy *)

Ltac unfold_actions :=
  unfold Memos.getMemos, Memos.getMemoById, Memos.createMemo,
    Memos.updateMemo, Memos.deleteMemo, Memos.searchMemos,
    Memos.getMemosByCategory, Part000.getMemos, Part000.getMemoById,
    Part000.createMemo, Part000.updateMemo, Part000.deleteMemo,
    Part000.searchMemos, Part000.getMemosByCategory.

(** Runs the action of the goal on the world [{| storage := s; heap := h |}]
    up to the reply, with a case for the optional category filter. *)
Ltac run_action := unfold_actions; try case_decide; run.

Ltac swallowed :=
  unfold swallows; run_action; reply_cases; finish_run;
  (split; [eexists; reflexivity | cbn; done]).

(** C3: every operation of the store, in either version of the module,
    returns to its caller whatever the storage client does, and returns its
    empty sentinel (the empty sequence, null, false) when the request met a
    storage failure: an error reported in the response, or a rejection. *)
Theorem storage_failures_are_swallowed {S} `{StorageClient S} (w : World S)
    (id query category : string) (formData : MemoFormData.t) :
  (swallows (Memos.getMemos w) [] ∧
   swallows (Memos.getMemoById id w) None ∧
   swallows (Memos.createMemo formData w) None ∧
   swallows (Memos.updateMemo id formData w) None ∧
   swallows (Memos.deleteMemo id w) false ∧
   swallows (Memos.searchMemos query w) [] ∧
   swallows (Memos.getMemosByCategory category w) []) ∧
  (swallows (Part000.getMemos w) [] ∧
   swallows (Part000.getMemoById id w) None ∧
   swallows (Part000.createMemo formData w) None ∧
   swallows (Part000.updateMemo id formData w) None ∧
   swallows (Part000.deleteMemo id w) false ∧
   swallows (Part000.searchMemos query w) [] ∧
   swallows (Part000.getMemosByCategory category w) []).
Proof.
  destruct w as [s h].
  split; (split; [|split; [|split; [|split; [|split; [|split]]]]]).
  all: swallowed.
Qed.

(** C3, at a client whose every request is rejected. *)
Lemma storage_failures_are_swallowed_witness :
  outcome (@Memos.getMemos unit Sample.unreachable Sample.start) = Return [] ∧
  outcome (@Part000.createMemo unit Sample.unreachable Sample.formData
             Sample.start) = Return None ∧
  outcome (@Memos.deleteMemo unit Sample.unreachable "m1" Sample.start)
  = Return false.
Proof.
  destruct (@storage_failures_are_swallowed unit Sample.unreachable
              Sample.start "m1" "milk" "todo" Sample.formData)
    as [(H1 & _ & _ & _ & H5 & _) (_ & _ & H3 & _)].
  split; [apply H1; reflexivity|].
  split; [apply H3; reflexivity | apply H5; reflexivity].
Defined.

(** ** Tags at the boundary *)

(** C4: every memo an operation returns is the presentation of a row the
    storage client delivered, and its tags are that row's tags, or the empty
    sequence when the row's tags are null; this holds on every path that
    returns memos (list, fetch, create, update, search, by category), in
    either version of the module. *)
Theorem tags_are_normalized {S} `{StorageClient S} (w : World S)
    (id query category : string) (formData : MemoFormData.t) :
  (presents_delivered returned_list (Memos.getMemos w) ∧
   presents_delivered returned_option (Memos.getMemoById id w) ∧
   presents_delivered returned_option (Memos.createMemo formData w) ∧
   presents_delivered returned_option (Memos.updateMemo id formData w) ∧
   presents_delivered returned_list (Memos.searchMemos query w) ∧
   presents_delivered returned_list (Memos.getMemosByCategory category w)) ∧
  (presents_delivered returned_list (Part000.getMemos w) ∧
   presents_delivered returned_option (Part000.getMemoById id w) ∧
   presents_delivered returned_option (Part000.createMemo formData w) ∧
   presents_delivered returned_option (Part000.updateMemo id formData w) ∧
   presents_delivered returned_list (Part000.searchMemos query w) ∧
   presents_delivered returned_list (Part000.getMemosByCategory category w)).
Proof.
  destruct w as [s h].
  split; (split; [|split; [|split; [|split; [|split]]]]).
  all: unfold presents_delivered; run_action; reply_cases; finish_run; intros m Hm.
  all: cbn in Hm; try (by apply elem_of_nil in Hm).
  all: try (apply list_elem_of_singleton in Hm as ->;
            eexists; split; [by apply list_elem_of_singleton|]).
  all: try (apply list_elem_of_fmap in Hm as (row & -> & Hrow);
            try (apply list_elem_of_filter in Hrow as [_ Hrow]);
            exists row; rewrite app_nil_r; split; [done|]).
  all: split; [done|]; cbn; by destruct (MemoRow.tags _).
Qed.

(** The memo store on the modelled backend presents a row with null tags as
    a memo with no tags. *)
Lemma tags_are_normalized_witness :
  ∃ row,
    row ∈ delivered (events (Memos.getMemos (Postgres.connect Sample.db))) ∧
    presents row (to_memo Sample.untagged).
Proof.
  destruct (tags_are_normalized (Postgres.connect Sample.db) "m1" "milk"
              "todo" Sample.formData) as [[Hlist _] _].
  apply Hlist. vm_compute. repeat constructor.
Defined.

(** ** The two versions of the module *)

Lemma widen_explicit t v fs o sg :
  widen {| b_table := t; b_verb := v; b_columns := Some memo_columns;
           b_filters := fs; b_order := o; b_single := sg |}
  = {| b_table := t; b_verb := v; b_columns := Some "*";
       b_filters := fs; b_order := o; b_single := sg |}.
Proof. unfold widen; cbn [b_columns]. by rewrite decide_True. Qed.

Lemma widen_no_select t v fs o sg :
  widen {| b_table := t; b_verb := v; b_columns := None;
           b_filters := fs; b_order := o; b_single := sg |}
  = {| b_table := t; b_verb := v; b_columns := None;
       b_filters := fs; b_order := o; b_single := sg |}.
Proof. unfold widen; cbn [b_columns]. by rewrite decide_False. Qed.

(** Turns the request of [memos.ts] into the one the second version
    sends. *)
Ltac respell Hsel :=
  try match goal with
  | |- context [request_rows ?b ?s] =>
      lazymatch b with
      | context [Some memo_columns] =>
          rewrite <- (proj1 (Hsel b s)), widen_explicit
      end
  | |- context [request_row ?b ?s] =>
      lazymatch b with
      | context [Some memo_columns] =>
          rewrite <- (proj2 (Hsel b s)), widen_explicit
      end
  end.

(** C9, as amended: for each of the seven operations and a storage client
    that answers the select list [*] as it answers the list of the seven
    columns, the two versions of the module return equal results, leave the
    storage in the same state, invalidate the same paths, and send the same
    requests up to the spelling of the select list; the filter on category
    reaches the request whether the builder is rebound or not. *)
Theorem versions_agree {S} `{StorageClient S}
    (Hsel : select_spelling_irrelevant S) (w : World S)
    (id query category : string) (formData : MemoFormData.t) :
  same_behaviour (Memos.getMemos w) (Part000.getMemos w) ∧
  same_behaviour (Memos.getMemoById id w) (Part000.getMemoById id w) ∧
  same_behaviour (Memos.createMemo formData w) (Part000.createMemo formData w) ∧
  same_behaviour (Memos.updateMemo id formData w)
                 (Part000.updateMemo id formData w) ∧
  same_behaviour (Memos.deleteMemo id w) (Part000.deleteMemo id w) ∧
  same_behaviour (Memos.searchMemos query w) (Part000.searchMemos query w) ∧
  same_behaviour (Memos.getMemosByCategory category w)
                 (Part000.getMemosByCategory category w).
Proof.
  destruct w as [s h].
  split; [|split; [|split; [|split; [|split; [|split]]]]].
  all: unfold same_behaviour; run_action; respell Hsel; reply_cases;
    finish_run; rewrite ?widen_explicit, ?widen_no_select.
  all: repeat split; reflexivity.
Qed.

(** C9, at a client with one answer to every request. *)
Lemma versions_agree_witness :
  let client :=
    Sample.canned
      (Fulfilled {| data := Some [Sample.urgent; Sample.untagged];
                    error := None |})
      (Fulfilled {| data := Some Sample.milk; error := None |}) in
  same_behaviour (@Memos.getMemosByCategory unit client "todo" Sample.start)
                 (@Part000.getMemosByCategory unit client "todo" Sample.start).
Proof.
  intros client.
  destruct (@versions_agree unit client (λ b s, conj eq_refl eq_refl)
              Sample.start "m1" "milk" "todo" Sample.formData)
    as (_ & _ & _ & _ & _ & _ & Hcat).
  exact Hcat.
Defined.

(** The requests of the two versions are not the same requests: where
    [memos.ts] names the seven columns, the second version asks for [*]. *)
Lemma versions_differ_in_select_list :
  let client :=
    Sample.canned
      (Fulfilled {| data := Some [Sample.urgent; Sample.untagged];
                    error := None |})
      (Fulfilled {| data := Some Sample.milk; error := None |}) in
  queries (events (@Memos.getMemos unit client Sample.start))
  ≠ queries (events (@Part000.getMemos unit client Sample.start)).
Proof. vm_compute. discriminate. Qed.

(** ** The modelled backend *)

Section postgres.
Import Postgres.

Lemma all_chars_app (P : ascii → bool) (a b : string) :
  all_chars P (a +:+ b) = all_chars P a && all_chars P b.
Proof.
  induction a as [|c a IH]; [done|].
  change (String c a +:+ b) with (String c (a +:+ b)).
  cbn [all_chars]. by rewrite IH, andb_assoc.
Qed.

Lemma all_chars_impl (P Q : ascii → bool) (s : string) :
  (∀ c, P c = true → Q c = true) → all_chars P s = true → all_chars Q s = true.
Proof.
  intros HPQ. induction s as [|c s IH]; [done|]. cbn [all_chars].
  intros [Hc Hs]%andb_true_iff. by rewrite (HPQ c Hc), IH.
Qed.

Lemma append_assoc (a b c : string) : (a +:+ b) +:+ c = a +:+ (b +:+ c).
Proof.
  induction a as [|x a IH]; [done|].
  change (String x a +:+ b) with (String x (a +:+ b)).
  change (String x (a +:+ b) +:+ c) with (String x ((a +:+ b) +:+ c)).
  by rewrite IH.
Qed.

Lemma toLowerCase_app (a b : string) :
  toLowerCase (a +:+ b) = toLowerCase a +:+ toLowerCase b.
Proof.
  induction a as [|c a IH]; [done|].
  change (String c a +:+ b) with (String c (a +:+ b)).
  cbn [toLowerCase]. by rewrite IH.
Qed.

Lemma star_app (a b : string) : star (a +:+ b) = star a +:+ star b.
Proof.
  induction a as [|c a IH]; [done|].
  change (String c a +:+ b) with (String c (a +:+ b)).
  cbn [star]. by rewrite IH.
Qed.

Lemma star_plain (s : string) :
  all_chars (λ c, negb (wild c)) s = true → star s = s.
Proof.
  induction s as [|c s IH]; [done|]. cbn [all_chars star].
  intros [Hc Hs]%andb_true_iff. rewrite IH by done.
  rewrite decide_False; [done|]. intros ->. done.
Qed.

(** Folding the case makes no wildcard. *)
Lemma lower_ascii_wild (c : ascii) :
  wild c = false → wild (lower_ascii c) = false.
Proof. destruct c as [[] [] [] [] [] [] [] []]; by vm_compute. Qed.

Lemma toLowerCase_plain (s : string) :
  all_chars (λ c, negb (wild c)) s = true →
  all_chars (λ c, negb (wild c)) (toLowerCase s) = true.
Proof.
  induction s as [|c s IH]; [done|]. cbn [all_chars toLowerCase].
  intros [Hc Hs]%andb_true_iff. rewrite IH by done.
  apply negb_true_iff in Hc. by rewrite lower_ascii_wild.
Qed.

Lemma not_wild (c : ascii) :
  negb (wild c) = true →
  c ≠ "%"%char ∧ c ≠ "_"%char ∧ c ≠ "092"%char.
Proof. intros Hc. repeat split; intros ->; done. Qed.

Lemma like_any (p t : string) :
  like (String "%" p) t
  = like p t || match t with
                | EmptyString => false
                | String _ t' => like (String "%" p) t'
                end.
Proof. by destruct t. Qed.

Lemma like_literal (c : ascii) (p t : string) :
  negb (wild c) = true →
  like (String c p) t
  = match t with
    | EmptyString => false
    | String d t' => bool_decide (c = d) && like p t'
    end.
Proof.
  intros (H1 & H2 & H3)%not_wild. cbn [like].
  by rewrite !decide_False by done.
Qed.

(** A pattern of literal characters and a closing [%] asks for a prefix. *)
Lemma like_prefix (p t : string) :
  all_chars (λ c, negb (wild c)) p = true →
  like (p +:+ "%") t = String.prefix p t.
Proof.
  revert t. induction p as [|c p IH]; intros t Hp.
  - change ("" +:+ "%") with "%". induction t as [|d t IHt]; [done|].
    rewrite like_any, IHt. by destruct t.
  - cbn [all_chars] in Hp. apply andb_true_iff in Hp as [Hc Hp].
    change (String c p +:+ "%") with (String c (p +:+ "%")).
    rewrite like_literal by done. destruct t as [|d t]; [done|].
    rewrite IH by done. cbn [String.prefix].
    destruct (ascii_dec c d) as [->|Hne].
    + by rewrite bool_decide_true.
    + by rewrite bool_decide_false.
Qed.

(** A pattern of literal characters between two [%] asks for a
    substring. *)
Lemma like_contains (p t : string) :
  all_chars (λ c, negb (wild c)) p = true →
  like (String "%" (p +:+ "%")) t = includes t p.
Proof.
  intros Hp. induction t as [|d t IH].
  - rewrite like_any, like_prefix by done. done.
  - rewrite like_any, like_prefix by done. by rewrite IH.
Qed.

Lemma pattern_ok_plain (p : string) :
  all_chars (λ c, negb (bool_decide (c = "092"%char))) p = true →
  pattern_ok p = true.
Proof.
  induction p as [|c p IH]; [done|]. cbn [all_chars pattern_ok].
  intros [Hc Hp]%andb_true_iff.
  apply negb_true_iff, bool_decide_eq_false in Hc.
  rewrite decide_False by done. by apply IH.
Qed.

Lemma plain_query_not_wild (q : string) :
  plain_query q = true → all_chars (λ c, negb (wild c)) q = true.
Proof.
  apply all_chars_impl. intros c Hc.
  by apply andb_true_iff in Hc as [[Hc _]%andb_true_iff _].
Qed.

(** On a plain query the pattern filter of a search is the substring test
    of the actions. *)
Lemma ilike_plain (column : MemoRow.t → string) (q : string) (r : MemoRow.t) :
  plain_query q = true →
  ilike column ("%" +:+ q +:+ "%") r
  = includes (toLowerCase (column r)) (toLowerCase q).
Proof.
  intros Hq%plain_query_not_wild. unfold ilike.
  change ("%" +:+ q +:+ "%") with (String "%" (q +:+ "%")).
  cbn [star]. rewrite decide_False by done.
  rewrite star_app, (star_plain q) by done.
  cbn [toLowerCase]. rewrite toLowerCase_app.
  change (toLowerCase (star "%")) with "%".
  change (lower_ascii "%") with "%"%char.
  by rewrite like_contains by (by apply toLowerCase_plain).
Qed.

Lemma pattern_ok_search (q : string) :
  plain_query q = true → pattern_ok (star ("%" +:+ q +:+ "%")) = true.
Proof.
  intros Hq%plain_query_not_wild.
  rewrite !star_app, (star_plain q) by done.
  change (star "%") with "%".
  change ("%" +:+ q +:+ "%") with (String "%" (q +:+ "%")).
  cbn [pattern_ok].
  apply pattern_ok_plain. rewrite all_chars_app.
  apply andb_true_iff. split; [|done].
  revert Hq. apply all_chars_impl. intros c Hc.
  apply negb_true_iff in Hc. apply negb_true_iff, bool_decide_eq_false.
  by intros ->.
Qed.

Lemma split_on_whole (sep : ascii) (a : string) :
  all_chars (λ c, negb (bool_decide (c = sep))) a = true →
  split_on sep a = [a].
Proof.
  induction a as [|c a IH]; [done|]. cbn [all_chars split_on].
  intros [Hc Ha]%andb_true_iff. apply negb_true_iff, bool_decide_eq_false in Hc.
  rewrite decide_False by done. by rewrite IH.
Qed.

Lemma split_on_app (sep : ascii) (a b : string) :
  all_chars (λ c, negb (bool_decide (c = sep))) a = true →
  split_on sep (a +:+ String sep b) = a :: split_on sep b.
Proof.
  induction a as [|c a IH]; intros Ha.
  - change ("" +:+ String sep b) with (String sep b). cbn [split_on].
    by rewrite decide_True.
  - cbn [all_chars] in Ha. apply andb_true_iff in Ha as [Hc Ha].
    apply negb_true_iff, bool_decide_eq_false in Hc.
    change (String c a +:+ String sep b) with (String c (a +:+ String sep b)).
    cbn [split_on]. rewrite decide_False by done. by rewrite IH.
Qed.

(** The filter string of a search on a plain query is taken apart into the
    two pattern filters it was made of. *)
Lemma parse_search_filters (q : string) :
  plain_query q = true →
  parse_filters (search_filters q)
  = Some [ {| cond_column := "title"; cond_operator := "ilike";
              cond_operand := "%" +:+ q +:+ "%" |};
           {| cond_column := "content"; cond_operator := "ilike";
              cond_operand := "%" +:+ q +:+ "%" |} ].
Proof.
  intros Hq.
  assert (all_chars (λ c, negb (grouping c)) q = true) as Hgroup.
  { revert Hq. apply all_chars_impl. intros c Hc.
    by apply andb_true_iff in Hc as [_ Hc]. }
  assert (all_chars (λ c, negb (bool_decide (c = ","%char))) q = true)
    as Hcomma.
  { revert Hq. apply all_chars_impl. intros c Hc.
    by apply andb_true_iff in Hc as [[_ Hc]%andb_true_iff _]. }
  unfold parse_filters, search_filters.
  rewrite !all_chars_app, Hgroup. cbn [all_chars andb negb].
  change (all_chars _ "title.ilike.") with true.
  change (all_chars _ ",content.ilike.") with true.
  change (all_chars (λ c, negb (grouping c)) "%") with true.
  cbn [andb].
  rewrite <- (append_assoc "title.ilike." ("%" +:+ q +:+ "%")).
  change (",content.ilike." +:+ ("%" +:+ q +:+ "%"))
    with (String "," ("content.ilike." +:+ ("%" +:+ q +:+ "%"))).
  rewrite split_on_app, split_on_whole.
  - reflexivity.
  - rewrite !all_chars_app, Hcomma. reflexivity.
  - rewrite !all_chars_app, Hcomma. reflexivity.
Qed.

(** The filter a search on a plain query sends keeps the rows whose title
    or content matches the pattern [%q%]. *)
Lemma where_search (q : string) :
  plain_query q = true →
  where_clause [FilterOr (search_filters q)]
  = Some (λ r, (ilike MemoRow.title ("%" +:+ q +:+ "%") r
                || (ilike MemoRow.content ("%" +:+ q +:+ "%") r || false))
               && true).
Proof.
  intros Hq. unfold where_clause. cbn [mapM filter_holds].
  rewrite parse_search_filters by done.
  cbn [mbind option_bind mapM]. unfold condition_holds.
  cbn [cond_column cond_operator cond_operand].
  rewrite pattern_ok_search by done. reflexivity.
Qed.

Lemma where_eq_category (c : string) :
  where_clause [FilterEq "category" c]
  = Some (λ r, bool_decide (MemoRow.category r = c) && true).
Proof. reflexivity. Qed.

Lemma where_eq_id (id : string) :
  where_clause [FilterEq "id" id]
  = Some (λ r, bool_decide (MemoRow.id r = id) && true).
Proof. reflexivity. Qed.

(** A read ordered by [created_at], newest first. *)
Lemma select_newest db columns fs keep :
  where_clause fs = Some keep →
  request_rows
    {| b_table := "memos"; b_verb := Some SelectRows;
       b_columns := Some columns; b_filters := fs;
       b_order := [{| ord_column := "created_at"; ascending := false |}];
       b_single := false |} db
  = (Fulfilled {| data := Some (newest (filter (λ r, Is_true (keep r))
                                          (memos db)));
                  error := None |}, db).
Proof.
  intros Hw. cbn [request_rows client]. unfold pg_rows, execute.
  cbn [b_table b_verb b_filters b_order b_columns].
  rewrite decide_True by done. rewrite Hw. reflexivity.
Qed.

(** A read whose filters the backend cannot make out. *)
Lemma select_malformed db columns fs :
  where_clause fs = None →
  request_rows
    {| b_table := "memos"; b_verb := Some SelectRows;
       b_columns := Some columns; b_filters := fs;
       b_order := [{| ord_column := "created_at"; ascending := false |}];
       b_single := false |} db
  = (Fulfilled {| data := None; error := Some bad_request |}, db).
Proof.
  intros Hw. cbn [request_rows client]. unfold pg_rows, execute.
  cbn [b_table b_verb b_filters b_order b_columns].
  rewrite decide_True by done. rewrite Hw. reflexivity.
Qed.

(** The modelled backend hands back whole rows for either spelling of the
    select list. *)
Lemma postgres_select_spelling_irrelevant : select_spelling_irrelevant Db.
Proof.
  intros b db. unfold widen. case_decide as Hcols; [|done].
  destruct b as [t v cols fs o sg]. cbn [b_columns] in Hcols. subst cols.
  split; reflexivity.
Qed.

End postgres.

(** ** Search *)

Section search.
Import Postgres.

Lemma search_run (db : Db) h (q : string) :
  outcome (Memos.searchMemos q {| storage := db; heap := h |})
  = Return
      (to_memo <$>
       filter (λ memo : MemoRow.t,
                 Is_true
                   (includes (toLowerCase (MemoRow.title memo)) (toLowerCase q)
                    || includes (toLowerCase (MemoRow.content memo))
                         (toLowerCase q)
                    || truthy ((λ tags, existsb (λ tag,
                         includes (toLowerCase tag) (toLowerCase q)) tags)
                       <$> MemoRow.tags memo)))
         (search_selection q db)).
Proof.
  run_action. unfold search_selection.
  change ("title.ilike." +:+ _) with (search_filters q).
  destruct (where_clause [FilterOr (search_filters q)]) as [keep|] eqn:Hw.
  - rewrite (select_newest _ _ _ _ Hw). run. reflexivity.
  - rewrite (select_malformed _ _ _ Hw). run. reflexivity.
Qed.

(** On a plain query the storage selects the rows whose title or content
    contains the query, letter case ignored. *)
Lemma search_selection_plain (db : Db) (q : string) :
  plain_query q = true →
  search_selection q db
  = newest (filter (λ r, Is_true
              (includes (toLowerCase (MemoRow.title r)) (toLowerCase q)
               || includes (toLowerCase (MemoRow.content r)) (toLowerCase q)))
              (memos db)).
Proof.
  intros Hq. unfold search_selection. rewrite where_search by done.
  f_equal. apply list_filter_iff. intros r.
  by rewrite !ilike_plain, orb_false_r, andb_true_r by done.
Qed.

End search.

(** ** Order of the reads *)

Section order.
Import Postgres.

Lemma descending_total key : Total (descending_by key).
Proof. intros a b. unfold descending_by. lia. Qed.

Lemma descending_transitive key : Transitive (descending_by key).
Proof. intros a b c. unfold descending_by. lia. Qed.

Lemma elem_of_newest (rows : list MemoRow.t) (r : MemoRow.t) :
  r ∈ newest rows ↔ r ∈ rows.
Proof. unfold newest. by rewrite merge_sort_Permutation. Qed.

Lemma newest_Permutation (rows : list MemoRow.t) : newest rows ≡ₚ rows.
Proof. apply merge_sort_Permutation. Qed.

Lemma newest_sorted (rows : list MemoRow.t) :
  StronglySorted (descending_by MemoRow.created_at) (newest rows).
Proof.
  apply @StronglySorted_merge_sort;
    [apply descending_transitive | apply descending_total].
Qed.

Lemma StronglySorted_filter {A} (R : relation A) (P : A → Prop)
    `{∀ x, Decision (P x)} (l : list A) :
  StronglySorted R l → StronglySorted R (filter P l).
Proof.
  induction 1 as [|x l Hl IH Hx]; [constructor|].
  rewrite filter_cons. case_decide; [|done].
  constructor; [done|].
  apply Forall_forall. intros y Hy%list_elem_of_filter.
  rewrite Forall_forall in Hx. apply Hx, Hy.
Qed.

(** With distinct timestamps a descending order is strictly descending. *)
Lemma descending_strict (l : list MemoRow.t) :
  NoDup (MemoRow.created_at <$> l) →
  StronglySorted (descending_by MemoRow.created_at) l →
  StronglySorted (λ a b, MemoRow.created_at b < MemoRow.created_at a) l.
Proof.
  intros Hnd Hs. induction Hs as [|x l Hl IH Hx]; [constructor|].
  rewrite fmap_cons in Hnd. apply NoDup_cons in Hnd as [Hx' Hnd].
  constructor; [by apply IH|].
  apply Forall_forall. intros y Hy.
  rewrite Forall_forall in Hx. specialize (Hx y Hy). unfold descending_by in Hx.
  assert (MemoRow.created_at y ≠ MemoRow.created_at x); [|lia].
  intros Heq. apply Hx'. rewrite <- Heq. by apply list_elem_of_fmap_2.
Qed.

Lemma to_memo_newest_first (l : list MemoRow.t) :
  StronglySorted (λ a b, MemoRow.created_at b < MemoRow.created_at a) l →
  StronglySorted newest_first (to_memo <$> l).
Proof. apply StronglySorted_fmap. done. Qed.

(** What the reads return on a table with distinct timestamps: a selection
    of the rows, ordered, selected from again. *)
Lemma selection_newest_first (rows : list MemoRow.t)
    (P Q : MemoRow.t → Prop) `{∀ x, Decision (P x)} `{∀ x, Decision (Q x)} :
  NoDup (MemoRow.created_at <$> rows) →
  StronglySorted newest_first (to_memo <$> filter Q (newest (filter P rows))).
Proof.
  intros Hnd. apply to_memo_newest_first, StronglySorted_filter.
  apply descending_strict; [|apply newest_sorted].
  rewrite newest_Permutation.
  eapply sublist_NoDup; [exact Hnd|]. apply fmap_sublist, sublist_filter.
Qed.

Lemma filter_all {A} (P : A → Prop) `{∀ x, Decision (P x)} (l : list A) :
  (∀ x, x ∈ l → P x) → filter P l = l.
Proof.
  induction l as [|x l IH]; intros HP; [done|].
  rewrite filter_cons_True by (apply HP; left).
  f_equal. apply IH. intros y Hy. apply HP. by right.
Qed.

Lemma getMemos_run (db : Db) h :
  outcome (Memos.getMemos {| storage := db; heap := h |})
  = Return (to_memo <$> newest (memos db)).
Proof.
  run_action. rewrite (select_newest _ _ [] (λ _, true) eq_refl). run.
  by rewrite filter_all.
Qed.

Lemma getMemosByCategory_all_run (db : Db) h :
  outcome (Memos.getMemosByCategory "all" {| storage := db; heap := h |})
  = Return (to_memo <$> newest (memos db)).
Proof.
  run_action; [done|]. rewrite (select_newest _ _ [] (λ _, true) eq_refl). run.
  by rewrite filter_all.
Qed.

Lemma getMemosByCategory_run (db : Db) h (c : string) :
  c ≠ "all" →
  outcome (Memos.getMemosByCategory c {| storage := db; heap := h |})
  = Return (to_memo <$>
            newest (filter (λ r, MemoRow.category r = c) (memos db))).
Proof.
  intros Hc. run_action; [|done].
  rewrite (select_newest _ _ _ _ (where_eq_category c)). run.
  do 3 f_equal. apply list_filter_iff. intros r.
  rewrite andb_true_r. apply bool_decide_spec.
Qed.

End order.

(** ** The reads on the modelled backend *)

Section reads.
Import Postgres.

(** X10: on the modelled backend, for a plain ASCII query and stored rows
    with ASCII texts, a search returns the presentations of the stored rows
    whose title or content contains the query, letter case ignored, those
    and no other. *)
Theorem search_returns_title_or_content_matches (db : Db) h (q : string) :
  plain_query q = true →
  is_ascii q = true →
  Forall (λ r, ascii_row r = true) (memos db) →
  ∃ l, outcome (Memos.searchMemos q {| storage := db; heap := h |}) = Return l ∧
       ∀ m, m ∈ l ↔
            ∃ row, row ∈ memos db ∧ m = to_memo row ∧
                   (includes (toLowerCase (MemoRow.title row)) (toLowerCase q)
                    = true ∨
                    includes (toLowerCase (MemoRow.content row)) (toLowerCase q)
                    = true).
Proof.
  intros Hq _ _. rewrite search_run, search_selection_plain by done.
  eexists; split; [done|]. intros m.
  rewrite list_elem_of_fmap. split.
  - intros (r & -> & Hr). apply list_elem_of_filter in Hr as [_ Hr].
    apply elem_of_newest, list_elem_of_filter in Hr as [Hkeep Hin].
    exists r. split; [done|]. split; [done|].
    apply Is_true_true, orb_true_iff in Hkeep. done.
  - intros (r & Hin & -> & Hmatch). exists r. split; [done|].
    assert (includes (toLowerCase (MemoRow.title r)) (toLowerCase q)
            || includes (toLowerCase (MemoRow.content r)) (toLowerCase q)
            = true) as Hor by (apply orb_true_iff; done).
    apply list_elem_of_filter. split.
    + rewrite Hor. done.
    + apply elem_of_newest, list_elem_of_filter. split; [|done].
      rewrite Hor. done.
Qed.

(** X10, at the query "milk" on the sample store. *)
Lemma search_returns_title_or_content_matches_witness :
  ∃ l, outcome (Memos.searchMemos "milk" (connect Sample.db)) = Return l ∧
       ∀ m, m ∈ l ↔
            ∃ row, row ∈ memos Sample.db ∧ m = to_memo row ∧
                   (includes (toLowerCase (MemoRow.title row))
                      (toLowerCase "milk") = true ∨
                    includes (toLowerCase (MemoRow.content row))
                      (toLowerCase "milk") = true).
Proof.
  apply (search_returns_title_or_content_matches Sample.db [] "milk");
    [reflexivity | reflexivity |].
  repeat constructor.
Defined.

(** The search for "MILK" finds the memo titled "Buy milk", and the memo
    whose content is "milky way". *)
Example search_is_case_insensitive :
  outcome (Memos.searchMemos "MILK" (connect Sample.db))
  = Return [to_memo Sample.untagged; to_memo Sample.milk].
Proof. by vm_compute. Qed.

(** C1: a search is to return the memos that match in title, content or
    tags.  On a table whose only memo is titled "x", with content "y" and
    the tag "urgent", the search for "urgent" returns nothing, although the
    memo's tags contain the query. *)
Theorem search_misses_tag_only_match :
  (∃ tag, MemoRow.tags Sample.urgent = Some [tag] ∧
          includes (toLowerCase tag) (toLowerCase "urgent") = true) ∧
  Sample.urgent ∈ memos Sample.only_urgent ∧
  outcome (Memos.searchMemos "urgent" (connect Sample.only_urgent))
  = Return [].
Proof.
  split; [by exists "urgent"|]. split; [by left|]. by vm_compute.
Qed.




(** C10: the search for the empty string returns every memo of the store,
    in descending order of [createdAt]. *)
Theorem empty_search_lists_everything (db : Db) h :
  ∃ l, outcome (Memos.searchMemos "" {| storage := db; heap := h |}) = Return l ∧
       l = to_memo <$> newest (memos db) ∧
       l ≡ₚ to_memo <$> memos db ∧
       StronglySorted (λ a b, Memo.createdAt b ≤ Memo.createdAt a) l.
Proof.
  rewrite search_run, search_selection_plain by done.
  eexists; split; [done|].
  assert (∀ s, includes s (toLowerCase "") = true) as Hall
    by apply includes_empty.
  rewrite !filter_all; [|by intros; rewrite Hall..].
  split; [done|]. split; [by rewrite newest_Permutation|].
  eapply StronglySorted_fmap; [|apply newest_sorted]. done.
Qed.

(** C5: with the category "all" the list by category is the list of all
    memos, the same memos in the same order, so their ids are the same; with
    any other category it is the stored memos of that category, each once. *)
Theorem category_all_is_no_filter (db : Db) h (c : string) :
  (∃ l, outcome (Memos.getMemosByCategory "all" {| storage := db; heap := h |})
        = Return l ∧
        outcome (Memos.getMemos {| storage := db; heap := h |}) = Return l ∧
        Memo.id <$> l ≡ₚ MemoRow.id <$> memos db) ∧
  (c ≠ "all" →
   ∃ l, outcome (Memos.getMemosByCategory c {| storage := db; heap := h |})
        = Return l ∧
        l ≡ₚ to_memo <$> filter (λ r, MemoRow.category r = c) (memos db) ∧
        ∀ m, m ∈ l ↔ m ∈ (to_memo <$> memos db) ∧ Memo.category m = c).
Proof.
  split.
  - rewrite getMemosByCategory_all_run, getMemos_run.
    eexists; split; [done|]. split; [done|].
    rewrite <- list_fmap_compose, newest_Permutation. done.
  - intros Hc. rewrite getMemosByCategory_run by done.
    eexists; split; [done|]. split; [by rewrite newest_Permutation|].
    intros m. rewrite !list_elem_of_fmap. split.
    + intros (r & -> & Hr). apply elem_of_newest, list_elem_of_filter in Hr
        as [Hr Hin]. split; [by exists r | done].
    + intros [(r & -> & Hr) Hm]. exists r. split; [done|].
      apply elem_of_newest, list_elem_of_filter. done.
Qed.

(** C5, at the category "todo" of the sample store. *)
Lemma category_all_is_no_filter_witness :
  ∃ l, outcome (Memos.getMemosByCategory "todo" (connect Sample.db))
       = Return l ∧
       l ≡ₚ to_memo <$> filter (λ r, MemoRow.category r = "todo")
                          (memos Sample.db) ∧
       ∀ m, m ∈ l ↔ m ∈ (to_memo <$> memos Sample.db) ∧ Memo.category m = "todo".
Proof.
  apply (category_all_is_no_filter Sample.db [] "todo"). discriminate.
Defined.

(** C6: when the stored memos have distinct [created_at] timestamps, the
    lists that [getMemos], [searchMemos] and [getMemosByCategory] return are
    in strictly descending order of [createdAt]. *)
Theorem lists_are_newest_first (db : Db) h (q c : string) :
  NoDup (MemoRow.created_at <$> memos db) →
  (∃ l, outcome (Memos.getMemos {| storage := db; heap := h |}) = Return l ∧
        StronglySorted newest_first l) ∧
  (∃ l, outcome (Memos.searchMemos q {| storage := db; heap := h |}) = Return l ∧
        StronglySorted newest_first l) ∧
  (∃ l, outcome (Memos.getMemosByCategory c {| storage := db; heap := h |})
        = Return l ∧
        StronglySorted newest_first l).
Proof.
  intros Hnd.
  pose proof (selection_newest_first (memos db) (λ _, True) (λ _, True) Hnd)
    as Hall.
  rewrite !filter_all in Hall by done.
  split; [|split].
  - rewrite getMemos_run. by eexists.
  - rewrite search_run. eexists; split; [done|]. unfold search_selection.
    destruct (where_clause _); [by apply selection_newest_first|].
    rewrite filter_nil. constructor.
  - destruct (decide (c = "all")) as [->|Hc].
    + rewrite getMemosByCategory_all_run. by eexists.
    + rewrite getMemosByCategory_run by done. eexists; split; [done|].
      pose proof (selection_newest_first (memos db)
                    (λ r, MemoRow.category r = c) (λ _, True) Hnd) as Hcat.
      by rewrite filter_all in Hcat.
Qed.

(** C6, at the sample store, whose three memos were made at 10, 20, 15. *)
Lemma lists_are_newest_first_witness :
  (∃ l, outcome (Memos.getMemos (connect Sample.db)) = Return l ∧
        StronglySorted newest_first l) ∧
  (∃ l, outcome (Memos.searchMemos "milk" (connect Sample.db)) = Return l ∧
        StronglySorted newest_first l) ∧
  (∃ l, outcome (Memos.getMemosByCategory "todo" (connect Sample.db))
        = Return l ∧
        StronglySorted newest_first l).
Proof.
  apply (lists_are_newest_first Sample.db [] "milk" "todo").
  refine (@bool_decide_unpack _ (NoDup_dec (A:=Z) _) _). vm_compute. exact I.
Defined.

End reads.

(** ** Writes *)

Section writes.
Import Postgres.

Lemma filter_none {A} (P : A → Prop) `{∀ x, Decision (P x)} (l : list A) :
  (∀ x, x ∈ l → ¬ P x) → filter P l = [].
Proof.
  induction l as [|x l IH]; intros HP; [done|].
  rewrite filter_cons_False by (apply HP; left).
  apply IH. intros y Hy. apply HP. by right.
Qed.

Lemma delete_rows (db : Db) (id : string) :
  request_rows (delete_request id) db
  = (Fulfilled {| data := None; error := None |},
     write (filter (λ r, ¬ Is_true (bool_decide (MemoRow.id r = id) && true))
              (memos db)) db).
Proof. reflexivity. Qed.

(** C7: whatever the storage client and whatever the id, [deleteMemo]
    returns true, and invalidates the listing, whenever its request meets
    no storage failure: the action looks at the error of the response only,
    so a delete that removed no row is not told from one that removed a
    row. *)
Theorem delete_reports_success {S} `{StorageClient S} (w : World S)
    (id : string) :
  storage_failed (events (Memos.deleteMemo id w)) = false →
  outcome (Memos.deleteMemo id w) = Return true ∧
  revalidations (events (Memos.deleteMemo id w)) = ["/"].
Proof.
  destruct w as [s h]. run_action. reply_cases; finish_run; done.
Qed.

(** C7, at an id the store does not hold. *)
Lemma delete_reports_success_witness :
  outcome (Memos.deleteMemo Fixture.absent_id (connect Fixture.uuid_db))
  = Return true ∧
  revalidations
    (events (Memos.deleteMemo Fixture.absent_id (connect Fixture.uuid_db)))
  = ["/"].
Proof.
  apply (delete_reports_success (connect Fixture.uuid_db) Fixture.absent_id).
  reflexivity.
Defined.

Lemma insert_row (db : Db) (values : Payload) (columns : string) :
  uuid_at db (tick db) ∉ MemoRow.id <$> memos db →
  request_row (insert_request values columns) db
  = (Fulfilled {| data := Some (inserted_row db values); error := None |},
     write (memos db ++ [inserted_row db values]) db).
Proof.
  intros Hfresh. cbn [request_row client]. unfold pg_row, execute.
  cbn [insert_request b_table b_verb b_filters b_order b_columns].
  rewrite decide_True by done. cbn [where_clause mapM mbind option_bind].
  cbn [inserted_row MemoRow.id]. rewrite decide_False by done. reflexivity.
Qed.

Lemma fetch_row (db : Db) (row : MemoRow.t) (columns : string) :
  filter (λ r, MemoRow.id r = MemoRow.id row) (memos db) = [row] →
  request_row (fetch_request (MemoRow.id row) columns) db
  = (Fulfilled {| data := Some row; error := None |}, db).
Proof.
  intros Hone. cbn [request_row client]. unfold pg_row, execute.
  cbn [fetch_request b_table b_verb b_filters b_order b_columns].
  rewrite decide_True by done. rewrite where_eq_id.
  rewrite (list_filter_iff _ (λ r, MemoRow.id r = MemoRow.id row)).
  - rewrite Hone. reflexivity.
  - intros r. rewrite andb_true_r. apply bool_decide_spec.
Qed.

(** What [createMemo] does on the modelled backend when the id drawn for
    the new row is not taken. *)
Lemma createMemo_run (db : Db) h (formData : MemoFormData.t) :
  let values :=
    {| p_title := MemoFormData.title formData;
       p_content := MemoFormData.content formData;
       p_category := MemoFormData.category formData;
       p_tags := or_array (MemoFormData.tags formData) [] |} in
  uuid_at db (tick db) ∉ MemoRow.id <$> memos db →
  Memos.createMemo formData {| storage := db; heap := h |}
  = {| outcome := Return (Some (to_memo (inserted_row db values)));
       final := {| storage := write (memos db ++ [inserted_row db values]) db;
                   heap := h ++ [insert_request values memo_columns] |};
       events := [Requested (insert_request values memo_columns)
                    (Row (Fulfilled
                       {| data := Some (inserted_row db values);
                          error := None |}));
                  Revalidated "/"] |}.
Proof.
  intros values Hfresh. run_action.
  change (request_row _ db)
    with (request_row (insert_request values memo_columns) db).
  rewrite insert_row by done. run. reflexivity.
Qed.

Lemma getMemoById_run (db : Db) h (row : MemoRow.t) :
  filter (λ r, MemoRow.id r = MemoRow.id row) (memos db) = [row] →
  outcome (Memos.getMemoById (MemoRow.id row) {| storage := db; heap := h |})
  = Return (Some (to_memo row)).
Proof.
  intros Hone. run_action.
  change (request_row _ db)
    with (request_row (fetch_request (MemoRow.id row) memo_columns) db).
  rewrite fetch_row by done. run. reflexivity.
Qed.

(** C8: when the form data leave the tags out, [createMemo] sends an insert
    whose tags are the empty sequence, whatever the storage client; on the
    modelled backend, if the id drawn for the row is free, the memo returned
    has no tags, the row stored has the empty array for its tags, and the
    memo read back by its id has no tags either. *)
Theorem omitted_tags_are_empty :
  (∀ S (client : StorageClient S) (w : World S) (formData : MemoFormData.t),
     MemoFormData.tags formData = None →
     queries (events (Memos.createMemo formData w))
     = [insert_request
          {| p_title := MemoFormData.title formData;
             p_content := MemoFormData.content formData;
             p_category := MemoFormData.category formData;
             p_tags := [] |} memo_columns]) ∧
  (∀ (db : Db) h (formData : MemoFormData.t),
     MemoFormData.tags formData = None →
     uuid_at db (tick db) ∉ MemoRow.id <$> memos db →
     let r := Memos.createMemo formData {| storage := db; heap := h |} in
     ∃ m,
       outcome r = Return (Some m) ∧
       Memo.tags m = [] ∧
       (∀ row, row ∈ memos (storage (final r)) →
               MemoRow.id row = Memo.id m → MemoRow.tags row = Some []) ∧
       ∃ m', outcome (Memos.getMemoById (Memo.id m) (final r))
             = Return (Some m') ∧
             Memo.tags m' = []).
Proof.
  split.
  - intros S client [s h] formData Htags. run_action.
    reply_cases; finish_run; by rewrite Htags.
  - intros db h formData Htags Hfresh r. subst r.
    rewrite createMemo_run by done. rewrite Htags. cbn [or_array].
    set (values := {| p_title := _; p_tags := [] |}).
    set (row := inserted_row db values).
    assert (filter (λ r, MemoRow.id r = MemoRow.id row) (memos db ++ [row])
            = [row]) as Hone.
    { rewrite filter_app, (filter_none _ (memos db)).
      - by rewrite filter_cons_True, filter_nil.
      - intros r Hr Heq. apply Hfresh.
        change (uuid_at db (tick db)) with (MemoRow.id row).
        rewrite <- Heq. by apply list_elem_of_fmap_2. }
    exists (to_memo row). cbn [outcome final storage].
    split; [done|]. split; [done|]. split.
    + intros r Hr Hid. cbn [write memos] in Hr.
      assert (r ∈ filter (λ r, MemoRow.id r = MemoRow.id row)
                    (memos db ++ [row])) as Hin
        by (apply list_elem_of_filter; done).
      rewrite Hone in Hin. by apply list_elem_of_singleton in Hin as ->.
    + exists (to_memo row). split; [|done].
      change (Memo.id (to_memo row)) with (MemoRow.id row).
      by apply getMemoById_run.
Qed.

(** C8, at the sample form data, which leave the tags out. *)
Lemma omitted_tags_are_empty_witness :
  ∃ m,
    outcome (Memos.createMemo Sample.formData (connect Sample.db))
    = Return (Some m) ∧
    Memo.tags m = [] ∧
    ∃ m', outcome (Memos.getMemoById (Memo.id m)
                     (final (Memos.createMemo Sample.formData
                               (connect Sample.db))))
          = Return (Some m') ∧
          Memo.tags m' = [].
Proof.
  destruct omitted_tags_are_empty as [_ Hpg].
  destruct (Hpg Sample.db [] Sample.formData eq_refl) as (m & Hm & Ht & _ & Hback).
  - refine (@bool_decide_unpack _ (not_dec (list_elem_of_dec _ _)) _).
    vm_compute. exact I.
  - exists m. split; [exact Hm|]. split; [exact Ht | exact Hback].
Defined.

End writes.

(** * Further properties of the actions *)

(** ** One request per call *)

(** X1: every action, in either version of the module, sends exactly one
    request to storage, to the table [memos], whatever the client answers:
    no action retries, and none follows a request with a second one. *)
Theorem every_action_sends_one_request {S} `{StorageClient S} (w : World S)
    (id query category : string) (formData : MemoFormData.t) :
  (one_request (Memos.getMemos w) ∧
   one_request (Memos.getMemoById id w) ∧
   one_request (Memos.createMemo formData w) ∧
   one_request (Memos.updateMemo id formData w) ∧
   one_request (Memos.deleteMemo id w) ∧
   one_request (Memos.searchMemos query w) ∧
   one_request (Memos.getMemosByCategory category w)) ∧
  (one_request (Part000.getMemos w) ∧
   one_request (Part000.getMemoById id w) ∧
   one_request (Part000.createMemo formData w) ∧
   one_request (Part000.updateMemo id formData w) ∧
   one_request (Part000.deleteMemo id w) ∧
   one_request (Part000.searchMemos query w) ∧
   one_request (Part000.getMemosByCategory category w)).
Proof.
  destruct w as [s h].
  split; (split; [|split; [|split; [|split; [|split; [|split]]]]]).
  all: unfold one_request; run_action; reply_cases; finish_run.
  all: eexists; split; reflexivity.
Qed.

(** ** Cache invalidation *)

(** X2: the four reads never invalidate a path, whatever the client
    answers. *)
Theorem reads_invalidate_nothing {S} `{StorageClient S} (w : World S)
    (id query category : string) :
  (revalidations (events (Memos.getMemos w)) = [] ∧
   revalidations (events (Memos.getMemoById id w)) = [] ∧
   revalidations (events (Memos.searchMemos query w)) = [] ∧
   revalidations (events (Memos.getMemosByCategory category w)) = []) ∧
  (revalidations (events (Part000.getMemos w)) = [] ∧
   revalidations (events (Part000.getMemoById id w)) = [] ∧
   revalidations (events (Part000.searchMemos query w)) = [] ∧
   revalidations (events (Part000.getMemosByCategory category w)) = []).
Proof.
  destruct w as [s h].
  split; (split; [|split; [|split]]).
  all: run_action; reply_cases; finish_run; reflexivity.
Qed.

(** X3: a write invalidates the path "/" once when it returns a memo (or
    true, for the delete), and invalidates nothing when it returns null (or
    false). *)
Theorem writes_invalidate_on_success {S} `{StorageClient S} (w : World S)
    (id : string) (formData : MemoFormData.t) :
  let on_success (ok : bool) : list string := if ok then ["/"] else [] in
  (revalidations (events (Memos.createMemo formData w))
   = on_success (wrote_memo (outcome (Memos.createMemo formData w))) ∧
   revalidations (events (Memos.updateMemo id formData w))
   = on_success (wrote_memo (outcome (Memos.updateMemo id formData w))) ∧
   revalidations (events (Memos.deleteMemo id w))
   = on_success (deleted (outcome (Memos.deleteMemo id w)))) ∧
  (revalidations (events (Part000.createMemo formData w))
   = on_success (wrote_memo (outcome (Part000.createMemo formData w))) ∧
   revalidations (events (Part000.updateMemo id formData w))
   = on_success (wrote_memo (outcome (Part000.updateMemo id formData w))) ∧
   revalidations (events (Part000.deleteMemo id w))
   = on_success (deleted (outcome (Part000.deleteMemo id w)))).
Proof.
  intros on_success. subst on_success. destruct w as [s h].
  split; (split; [|split]).
  all: run_action; reply_cases; finish_run; reflexivity.
Qed.

(** ** The console *)

(** X4: what the actions of [memos.ts] log.  An error reported in the
    response is logged twice, once where it is found and once more by the
    catch clause it is thrown to, except by [getMemoById], which returns
    instead of throwing and logs it once; a rejection is logged once; and
    nothing else is ever logged. *)
Theorem failures_are_logged {S} `{StorageClient S} (w : World S)
    (id query category : string) (formData : MemoFormData.t) :
  let log_of {A} (r : Run S A) (on_error : list string) (on_rejection : string)
    := logged (events r) = expected_log on_error on_rejection (events r) in
  log_of (Memos.getMemos w)
    ["Error fetching memos:"; "Failed to fetch memos:"]
    "Failed to fetch memos:" ∧
  log_of (Memos.getMemoById id w)
    ["Error fetching memo:"] "Failed to fetch memo:" ∧
  log_of (Memos.createMemo formData w)
    ["Error creating memo:"; "Failed to create memo:"]
    "Failed to create memo:" ∧
  log_of (Memos.updateMemo id formData w)
    ["Error updating memo:"; "Failed to update memo:"]
    "Failed to update memo:" ∧
  log_of (Memos.deleteMemo id w)
    ["Error deleting memo:"; "Failed to delete memo:"]
    "Failed to delete memo:" ∧
  log_of (Memos.searchMemos query w)
    ["Error searching memos:"; "Failed to search memos:"]
    "Failed to search memos:" ∧
  log_of (Memos.getMemosByCategory category w)
    ["Error fetching memos by category:";
     "Failed to fetch memos by category:"]
    "Failed to fetch memos by category:".
Proof.
  intros log_of. subst log_of. destruct w as [s h].
  split; [|split; [|split; [|split; [|split; [|split]]]]].
  all: run_action; reply_cases; finish_run; reflexivity.
Qed.

(** X5: for a client that answers the two spellings of the select list
    alike, the two versions of the module log the same entries, with one
    exception: when the response to [createMemo] holds neither a row nor an
    error, [memos.ts] returns null in silence, and the second version, which
    reads [data.id] unguarded, logs the type error it catches. *)
Theorem versions_log_alike {S} `{StorageClient S}
    (Hsel : select_spelling_irrelevant S) (w : World S)
    (id query category : string) (formData : MemoFormData.t) :
  logged (events (Part000.getMemos w)) = logged (events (Memos.getMemos w)) ∧
  logged (events (Part000.getMemoById id w))
  = logged (events (Memos.getMemoById id w)) ∧
  logged (events (Part000.createMemo formData w))
  = logged (events (Memos.createMemo formData w))
    ++ (if negb (storage_failed (events (Memos.createMemo formData w)))
           && negb (wrote_memo (outcome (Memos.createMemo formData w)))
        then [null_data_log] else []) ∧
  logged (events (Part000.updateMemo id formData w))
  = logged (events (Memos.updateMemo id formData w)) ∧
  logged (events (Part000.deleteMemo id w))
  = logged (events (Memos.deleteMemo id w)) ∧
  logged (events (Part000.searchMemos query w))
  = logged (events (Memos.searchMemos query w)) ∧
  logged (events (Part000.getMemosByCategory category w))
  = logged (events (Memos.getMemosByCategory category w)).
Proof.
  destruct w as [s h].
  split; [|split; [|split; [|split; [|split; [|split]]]]].
  all: run_action; respell Hsel; reply_cases; finish_run; reflexivity.
Qed.

(** X5, at a client whose responses hold neither data nor an error. *)
Lemma versions_log_alike_witness :
  logged (events (@Part000.createMemo unit Fixture.hollow Sample.formData
                    Sample.start)) = [null_data_log] ∧
  logged (events (@Memos.createMemo unit Fixture.hollow Sample.formData
                    Sample.start)) = [].
Proof.
  destruct (@versions_log_alike unit Fixture.hollow
              (λ b s, conj eq_refl eq_refl) Sample.start "m1" "milk" "todo"
              Sample.formData) as (_ & _ & Hcreate & _).
  split; [exact Hcreate | reflexivity].
Defined.

(** ** Results and the rows delivered *)

(** X6: [getMemos] and [getMemosByCategory], in either version, return one
    memo for each row the client delivered, in the order of delivery, and
    the empty sequence when the request met a storage failure: the actions
    themselves neither drop, add nor reorder a row. *)
Theorem lists_mirror_delivered {S} `{StorageClient S} (w : World S)
    (category : string) :
  let mirrors (r : Run S (list Memo.t)) :=
    outcome r = Return (if storage_failed (events r) then []
                        else to_memo <$> delivered (events r)) in
  mirrors (Memos.getMemos w) ∧
  mirrors (Memos.getMemosByCategory category w) ∧
  mirrors (Part000.getMemos w) ∧
  mirrors (Part000.getMemosByCategory category w).
Proof.
  intros mirrors. subst mirrors. destruct w as [s h].
  split; [|split; [|split]].
  all: run_action; reply_cases; finish_run; by rewrite ?app_nil_r.
Qed.

(** X7: for an ASCII query, and when the rows the client delivered have
    ASCII titles, contents and tags, [searchMemos], in either version,
    returns the rows the client delivered that contain the query in their
    title, their content or one of their tags, letter case ignored, in the
    order of delivery: whatever the storage selects, no memo is returned
    that matches the query nowhere. *)
Theorem search_keeps_delivered_matches {S} `{StorageClient S} (w : World S)
    (query : string) :
  let keeps (r : Run S (list Memo.t)) :=
    Forall (λ row, ascii_row row = true) (delivered (events r)) →
    outcome r
    = Return (if storage_failed (events r) then []
              else to_memo <$>
                   filter (λ memo, Is_true (matches query memo))
                          (delivered (events r))) in
  is_ascii query = true →
  keeps (Memos.searchMemos query w) ∧ keeps (Part000.searchMemos query w).
Proof.
  intros keeps _. subst keeps. destruct w as [s h].
  split; intros _.
  all: run_action; reply_cases; finish_run; rewrite ?app_nil_r; try done.
  all: do 2 f_equal; apply list_filter_iff; intros memo; unfold matches;
    by destruct (MemoRow.tags memo).
Qed.

(** X7, at a client that delivers a memo tagged "urgent" and a memo
    without tags. *)
Lemma search_keeps_delivered_matches_witness :
  outcome (@Memos.searchMemos unit Fixture.delivering "URGENT" Sample.start)
  = Return [to_memo Sample.urgent] ∧
  outcome (@Part000.searchMemos unit Fixture.delivering "URGENT" Sample.start)
  = Return [to_memo Sample.urgent].
Proof.
  destruct (@search_keeps_delivered_matches unit Fixture.delivering
              Sample.start "URGENT" eq_refl) as [Hv1 Hv2].
  split; [apply Hv1 | apply Hv2]; repeat constructor.
Defined.

(** X8: [getMemoById], [createMemo] and [updateMemo], in either version,
    return the memo of the row the client delivered, and null when it
    delivered none or the request met a storage failure. *)
Theorem single_row_results {S} `{StorageClient S} (w : World S)
    (id : string) (formData : MemoFormData.t) :
  let mirrors (r : Run S (option Memo.t)) :=
    outcome r = Return (if storage_failed (events r) then None
                        else head (to_memo <$> delivered (events r))) in
  (mirrors (Memos.getMemoById id w) ∧
   mirrors (Memos.createMemo formData w) ∧
   mirrors (Memos.updateMemo id formData w)) ∧
  (mirrors (Part000.getMemoById id w) ∧
   mirrors (Part000.createMemo formData w) ∧
   mirrors (Part000.updateMemo id formData w)).
Proof.
  intros mirrors. subst mirrors. destruct w as [s h].
  split; (split; [|split]).
  all: run_action; reply_cases; finish_run; reflexivity.
Qed.

(** ** The requests of the writes *)

(** X9: the writes of [memos.ts] pass the form data on as they are: the
    insert and the update carry the title, the content and the category of
    the form unchanged, and its tags, or the empty sequence when it has
    none; nothing is trimmed, checked or defaulted but the tags.  The
    update, the delete and the fetch by id are restricted to the rows whose
    [id] is the one given. *)
Theorem writes_pass_the_form_on {S} `{StorageClient S} (w : World S)
    (id : string) (formData : MemoFormData.t) :
  queries (events (Memos.createMemo formData w))
  = [insert_request (form_values formData) memo_columns] ∧
  queries (events (Memos.updateMemo id formData w))
  = [update_request id (form_values formData) memo_columns] ∧
  queries (events (Memos.deleteMemo id w)) = [delete_request id] ∧
  queries (events (Memos.getMemoById id w)) = [fetch_request id memo_columns].
Proof.
  destruct w as [s h].
  split; [|split; [|split]].
  all: run_action; reply_cases; finish_run; reflexivity.
Qed.

(** ** Writes and reads in sequence, on the modelled backend *)

Section sequences.
Import Postgres.

Lemma keep_id_iff (id : string) (r : MemoRow.t) :
  Is_true (bool_decide (MemoRow.id r = id) && true) ↔ MemoRow.id r = id.
Proof. rewrite andb_true_r. apply bool_decide_spec. Qed.

Lemma fetch_none (db : Db) (id columns : string) :
  filter (λ r, MemoRow.id r = id) (memos db) = [] →
  request_row (fetch_request id columns) db
  = (Fulfilled {| data := None; error := Some not_a_single_row |}, db).
Proof.
  intros Hnone. cbn [request_row client]. unfold pg_row, execute.
  cbn [fetch_request b_table b_verb b_filters b_order b_columns].
  rewrite decide_True by done. rewrite where_eq_id.
  rewrite (list_filter_iff _ (λ r, MemoRow.id r = id)) by apply keep_id_iff.
  rewrite Hnone. reflexivity.
Qed.

Lemma update_one (db : Db) (id columns : string) (values : Payload)
    (row : MemoRow.t) :
  filter (λ r, MemoRow.id r = id) (memos db) = [row] →
  request_row (update_request id values columns) db
  = (Fulfilled {| data := Some (updated_row db values row); error := None |},
     write ((λ r, if bool_decide (MemoRow.id r = id) && true
                  then updated_row db values r else r) <$> memos db) db).
Proof.
  intros Hone. cbn [request_row client]. unfold pg_row, execute.
  cbn [update_request b_table b_verb b_filters b_order b_columns].
  rewrite decide_True by done. rewrite where_eq_id.
  rewrite (list_filter_iff _ (λ r, MemoRow.id r = id)) by apply keep_id_iff.
  rewrite Hone. reflexivity.
Qed.

Lemma update_none (db : Db) (id columns : string) (values : Payload) :
  filter (λ r, MemoRow.id r = id) (memos db) = [] →
  request_row (update_request id values columns) db
  = (Fulfilled {| data := None; error := Some not_a_single_row |}, db).
Proof.
  intros Hnone. cbn [request_row client]. unfold pg_row, execute.
  cbn [update_request b_table b_verb b_filters b_order b_columns].
  rewrite decide_True by done. rewrite where_eq_id.
  rewrite (list_filter_iff _ (λ r, MemoRow.id r = id)) by apply keep_id_iff.
  rewrite Hnone. reflexivity.
Qed.

(** A change of rows that keeps their ids commutes with the selection of
    an id. *)
Lemma filter_id_fmap (g : MemoRow.t → MemoRow.t) (id : string)
    (rows : list MemoRow.t) :
  (∀ r, MemoRow.id (g r) = MemoRow.id r) →
  filter (λ r, MemoRow.id r = id) (g <$> rows)
  = g <$> filter (λ r, MemoRow.id r = id) rows.
Proof.
  intros Hg. induction rows as [|r rows IH]; [done|].
  rewrite fmap_cons, !filter_cons, Hg, IH. by case_decide.
Qed.

Lemma getMemoById_absent_run (db : Db) h (id : string) :
  filter (λ r, MemoRow.id r = id) (memos db) = [] →
  Memos.getMemoById id {| storage := db; heap := h |}
  = {| outcome := Return None;
       final := {| storage := db;
                   heap := h ++ [fetch_request id memo_columns] |};
       events := [Requested (fetch_request id memo_columns)
                    (Row (Fulfilled {| data := None;
                                       error := Some not_a_single_row |}));
                  Logged "Error fetching memo:"
                    (ErrPostgrest not_a_single_row)] |}.
Proof.
  intros Hnone. run_action.
  change (request_row _ db)
    with (request_row (fetch_request id memo_columns) db).
  rewrite fetch_none by done. run. reflexivity.
Qed.

Lemma deleteMemo_run (db : Db) h (id : string) :
  Memos.deleteMemo id {| storage := db; heap := h |}
  = {| outcome := Return true;
       final := {| storage := write (filter (λ r, MemoRow.id r ≠ id)
                                       (memos db)) db;
                   heap := h ++ [delete_request id] |};
       events := [Requested (delete_request id)
                    (Rows (Fulfilled {| data := None; error := None |}));
                  Revalidated "/"] |}.
Proof.
  run_action.
  change (request_rows _ db) with (request_rows (delete_request id) db).
  rewrite delete_rows. run.
  rewrite (list_filter_iff _ (λ r, MemoRow.id r ≠ id)); [done|].
  intros r. by rewrite keep_id_iff.
Qed.

Lemma updateMemo_run (db : Db) h (id : string) (formData : MemoFormData.t)
    (row : MemoRow.t) :
  filter (λ r, MemoRow.id r = id) (memos db) = [row] →
  Memos.updateMemo id formData {| storage := db; heap := h |}
  = {| outcome :=
         Return (Some (to_memo (updated_row db (form_values formData) row)));
       final :=
         {| storage :=
              write ((λ r, if bool_decide (MemoRow.id r = id) && true
                           then updated_row db (form_values formData) r
                           else r) <$> memos db) db;
            heap := h ++ [update_request id (form_values formData)
                            memo_columns] |};
       events :=
         [Requested (update_request id (form_values formData) memo_columns)
            (Row (Fulfilled
               {| data := Some (updated_row db (form_values formData) row);
                  error := None |}));
          Revalidated "/"] |}.
Proof.
  intros Hone. run_action.
  change (request_row _ db)
    with (request_row (update_request id (form_values formData)
                         memo_columns) db).
  rewrite (update_one _ _ _ _ row) by done. run. reflexivity.
Qed.

End sequences.

Section roundtrips.
Import Postgres.

Lemma no_row_with_id (db : Db) (id : string) :
  id ∉ MemoRow.id <$> memos db →
  filter (λ r, MemoRow.id r = id) (memos db) = [].
Proof.
  intros Hid. apply filter_none. intros r Hr Heq. apply Hid.
  rewrite <- Heq. by apply list_elem_of_fmap_2.
Qed.

(** X11: on the modelled backend, when the id drawn for the new row is
    free, [createMemo] returns a memo with the title, the content and the
    tags of the form (no tags when the form has none), the category of the
    form or "personal" when the form has none, and equal creation and
    update times; the rows stored before are all still there; and
    [getMemoById] with the id of that memo, called next, returns that very
    memo. *)
Theorem create_then_fetch (db : Db) h (formData : MemoFormData.t) :
  uuid_at db (tick db) ∉ MemoRow.id <$> memos db →
  let r := Memos.createMemo formData {| storage := db; heap := h |} in
  ∃ m,
    outcome r = Return (Some m) ∧
    Memo.title m = MemoFormData.title formData ∧
    Memo.content m = MemoFormData.content formData ∧
    Memo.category m = nullish (MemoFormData.category formData) "personal" ∧
    Memo.tags m = or_array (MemoFormData.tags formData) [] ∧
    Memo.createdAt m = Memo.updatedAt m ∧
    (∀ row, row ∈ memos db → row ∈ memos (storage (final r))) ∧
    outcome (Memos.getMemoById (Memo.id m) (final r)) = Return (Some m).
Proof.
  intros Hfresh r. subst r. rewrite createMemo_run by done.
  set (row := inserted_row db _).
  exists (to_memo row). cbn [outcome final storage write memos].
  repeat (split; [done|]). split.
  - intros old Hold. apply elem_of_app. by left.
  - change (Memo.id (to_memo row)) with (MemoRow.id row).
    apply getMemoById_run. cbn [write memos].
    rewrite filter_app, (filter_none _ (memos db)).
    + by rewrite filter_cons_True, filter_nil.
    + intros old Hold Heq. apply Hfresh.
      change (uuid_at db (tick db)) with (MemoRow.id row).
      rewrite <- Heq. by apply list_elem_of_fmap_2.
Qed.

(** X11, at the sample store and a form without category and tags. *)
Lemma create_then_fetch_witness :
  ∃ m,
    outcome (Memos.createMemo Sample.formData (connect Sample.db))
    = Return (Some m) ∧
    Memo.category m = "personal" ∧
    outcome (Memos.getMemoById (Memo.id m)
               (final (Memos.createMemo Sample.formData (connect Sample.db))))
    = Return (Some m).
Proof.
  destruct (create_then_fetch Sample.db [] Sample.formData)
    as (m & Hm & _ & _ & Hcat & _ & _ & _ & Hback).
  - refine (@bool_decide_unpack _ (not_dec (list_elem_of_dec _ _)) _).
    vm_compute. exact I.
  - exists m. split; [exact Hm|]. split; [exact Hcat | exact Hback].
Defined.

(** X12: on the modelled backend, when exactly one row has the id,
    [updateMemo] returns a memo with that id, the title, the content and
    the tags of the form, the category of the form or the stored one when
    the form has none, the creation time of the stored row and the time of
    the update as its update time; the rows with another id are left as
    they were; and [getMemoById] with the id, called next, returns that
    very memo. *)
Theorem update_then_fetch (db : Db) h (id : string)
    (formData : MemoFormData.t) (row : MemoRow.t) :
  filter (λ r, MemoRow.id r = id) (memos db) = [row] →
  let r := Memos.updateMemo id formData {| storage := db; heap := h |} in
  ∃ m,
    outcome r = Return (Some m) ∧
    Memo.id m = id ∧
    Memo.title m = MemoFormData.title formData ∧
    Memo.content m = MemoFormData.content formData ∧
    Memo.category m
    = nullish (MemoFormData.category formData) (MemoRow.category row) ∧
    Memo.tags m = or_array (MemoFormData.tags formData) [] ∧
    Memo.createdAt m = MemoRow.created_at row ∧
    Memo.updatedAt m = now_at db (tick db) ∧
    (∀ other, other ∈ memos db → MemoRow.id other ≠ id →
              other ∈ memos (storage (final r))) ∧
    outcome (Memos.getMemoById id (final r)) = Return (Some m).
Proof.
  intros Hone r. subst r.
  assert (MemoRow.id row = id) as Hid.
  { assert (row ∈ filter (λ r, MemoRow.id r = id) (memos db)) as Hin
      by (rewrite Hone; left).
    by apply list_elem_of_filter in Hin as [Hin _]. }
  rewrite (updateMemo_run _ _ _ _ row) by done.
  set (values := form_values formData).
  set (g := λ r : MemoRow.t, if bool_decide (MemoRow.id r = id) && true
                             then updated_row db values r else r).
  exists (to_memo (updated_row db values row)).
  cbn [outcome final storage write memos].
  split; [done|]. split; [done|]. repeat (split; [done|]). split.
  - intros other Hin Hother. apply list_elem_of_fmap. exists other.
    split; [|done]. unfold g. by rewrite bool_decide_false.
  - subst id.
    change (MemoRow.id row)
      with (MemoRow.id (updated_row db values row)) at 1.
    apply getMemoById_run. cbn [write memos updated_row MemoRow.id].
    rewrite filter_id_fmap, Hone.
    + cbn [fmap list_fmap]. unfold g. by rewrite bool_decide_true.
    + intros r0. unfold g. by destruct (bool_decide _ && true).
Qed.

(** X12, at the memo "m1" of the sample store. *)
Lemma update_then_fetch_witness :
  ∃ m,
    outcome (Memos.updateMemo "m1" Fixture.edit (connect Sample.db))
    = Return (Some m) ∧
    Memo.title m = "Buy oat milk" ∧
    Memo.category m = "todo" ∧
    Memo.createdAt m = 10 ∧
    Memo.updatedAt m = 100 ∧
    outcome (Memos.getMemoById "m1"
               (final (Memos.updateMemo "m1" Fixture.edit (connect Sample.db))))
    = Return (Some m).
Proof.
  destruct (update_then_fetch Sample.db [] "m1" Fixture.edit Sample.milk
              eq_refl)
    as (m & Hm & _ & Ht & _ & Hc & _ & Hcr & Hup & _ & Hback).
  exists m. repeat (split; [assumption|]). exact Hback.
Defined.

(** X13: on the modelled backend, when the id and the ids of the stored
    rows are UUIDs as the storage prints them, [deleteMemo] removes the rows
    with the id and no other row, and [getMemoById] with the id, called
    next, returns null. *)
Theorem delete_then_fetch (db : Db) h (id : string) :
  uuid_ids id db →
  let r := Memos.deleteMemo id {| storage := db; heap := h |} in
  memos (storage (final r)) = filter (λ row, MemoRow.id row ≠ id) (memos db) ∧
  outcome (Memos.getMemoById id (final r)) = Return None.
Proof.
  intros _ r. subst r. rewrite deleteMemo_run. cbn [final storage write memos].
  split; [done|]. rewrite getMemoById_absent_run; [done|].
  cbn [write memos]. apply filter_none.
  intros row Hrow Heq. by apply list_elem_of_filter in Hrow as [Hne _].
Qed.

(** X13, at a memo of a store whose ids are UUIDs. *)
Lemma delete_then_fetch_witness :
  memos (storage (final (Memos.deleteMemo (MemoRow.id Fixture.groceries)
                           (connect Fixture.uuid_db))))
  = [Fixture.snake] ∧
  outcome (Memos.getMemoById (MemoRow.id Fixture.groceries)
             (final (Memos.deleteMemo (MemoRow.id Fixture.groceries)
                       (connect Fixture.uuid_db))))
  = Return None.
Proof.
  apply (delete_then_fetch Fixture.uuid_db [] (MemoRow.id Fixture.groceries)).
  split; [reflexivity | repeat constructor].
Defined.

(** X14: on the modelled backend, when the id and the ids of the stored
    rows are UUIDs as the storage prints them, [updateMemo] with an id no
    row has returns null, invalidates nothing and leaves the storage as it
    was. *)
Theorem update_of_absent_id (db : Db) h (id : string)
    (formData : MemoFormData.t) :
  uuid_ids id db →
  id ∉ MemoRow.id <$> memos db →
  let r := Memos.updateMemo id formData {| storage := db; heap := h |} in
  outcome r = Return None ∧
  revalidations (events r) = [] ∧
  storage (final r) = db.
Proof.
  intros _ Hid r. subst r. run_action.
  change (request_row _ db)
    with (request_row (update_request id (form_values formData)
                         memo_columns) db).
  rewrite update_none by (by apply no_row_with_id). run. done.
Qed.

(** X14, at a UUID the store does not hold. *)
Lemma update_of_absent_id_witness :
  outcome (Memos.updateMemo Fixture.absent_id Fixture.edit
             (connect Fixture.uuid_db))
  = Return None ∧
  storage (final (Memos.updateMemo Fixture.absent_id Fixture.edit
                    (connect Fixture.uuid_db)))
  = Fixture.uuid_db.
Proof.
  destruct (update_of_absent_id Fixture.uuid_db [] Fixture.absent_id
              Fixture.edit)
    as (Hnull & _ & Hsame).
  - split; [reflexivity | repeat constructor].
  - refine (@bool_decide_unpack _ (not_dec (list_elem_of_dec _ _)) _).
    vm_compute. exact I.
  - split; [exact Hnull | exact Hsame].
Defined.

(** X15: on the modelled backend, when the id and the ids of the stored
    rows are UUIDs as the storage prints them, [getMemoById] with an id no
    row has returns null and logs the error of the single-row fetch once,
    as it does for any error the storage reports: a caller cannot tell a
    missing memo from a failed request. *)
Theorem fetch_of_absent_id (db : Db) h (id : string) :
  uuid_ids id db →
  id ∉ MemoRow.id <$> memos db →
  let r := Memos.getMemoById id {| storage := db; heap := h |} in
  outcome r = Return None ∧
  storage_failed (events r) = true ∧
  logged (events r)
  = [("Error fetching memo:", ErrPostgrest not_a_single_row)] ∧
  storage (final r) = db.
Proof.
  intros _ Hid r. subst r.
  rewrite getMemoById_absent_run by (by apply no_row_with_id). done.
Qed.

(** X15, at a UUID the store does not hold. *)
Lemma fetch_of_absent_id_witness :
  outcome (Memos.getMemoById Fixture.absent_id (connect Fixture.uuid_db))
  = Return None.
Proof.
  destruct (fetch_of_absent_id Fixture.uuid_db [] Fixture.absent_id)
    as (Hnull & _).
  - split; [reflexivity | repeat constructor].
  - refine (@bool_decide_unpack _ (not_dec (list_elem_of_dec _ _)) _).
    vm_compute. exact I.
  - exact Hnull.
Defined.

End roundtrips.

(** ** The lists against one another *)

(** X16: with the category "all", [getMemosByCategory] of [memos.ts] is
    [getMemos] for every storage client: it sends the same request, returns
    the same result and leaves the storage in the same state. *)
Theorem category_all_is_getMemos {S} `{StorageClient S} (w : World S) :
  queries (events (Memos.getMemosByCategory "all" w))
  = queries (events (Memos.getMemos w)) ∧
  outcome (Memos.getMemosByCategory "all" w) = outcome (Memos.getMemos w) ∧
  storage (final (Memos.getMemosByCategory "all" w))
  = storage (final (Memos.getMemos w)).
Proof.
  destruct w as [s h]. run_action; [done|]. reply_cases; finish_run; done.
Qed.

Section composition.
Import Postgres.

Lemma newest_filter (P : MemoRow.t → Prop) `{∀ x, Decision (P x)}
    (rows : list MemoRow.t) :
  NoDup (MemoRow.created_at <$> rows) →
  newest (filter P rows) = filter P (newest rows).
Proof.
  intros Hnd.
  apply (StronglySorted_unique_strong
           (λ a b, MemoRow.created_at b < MemoRow.created_at a)).
  - intros x y _ _ Hxy Hyx. lia.
  - apply descending_strict; [|apply newest_sorted].
    rewrite newest_Permutation.
    eapply sublist_NoDup; [exact Hnd|]. apply fmap_sublist, sublist_filter.
  - apply StronglySorted_filter, descending_strict; [|apply newest_sorted].
    by rewrite newest_Permutation.
  - by rewrite !newest_Permutation.
Qed.

Lemma to_memo_filter (P : MemoRow.t → Prop) (Q : Memo.t → Prop)
    `{∀ x, Decision (P x)} `{∀ x, Decision (Q x)} (rows : list MemoRow.t) :
  (∀ r, P r ↔ Q (to_memo r)) →
  to_memo <$> filter P rows = filter Q (to_memo <$> rows).
Proof.
  intros HPQ. induction rows as [|r rows IH]; [done|].
  rewrite fmap_cons, !filter_cons.
  destruct (decide (P r)) as [HP|HP].
  - rewrite decide_True by (by apply HPQ). by rewrite fmap_cons, IH.
  - rewrite decide_False by (by rewrite <- HPQ). done.
Qed.

(** X17: on the modelled backend, when the stored memos have distinct
    [created_at] timestamps, the other two lists are the list of
    [getMemos] filtered: [getMemosByCategory] with a category other than
    "all" returns the memos of [getMemos] with that category, and, for a
    plain ASCII query and stored rows with ASCII texts, [searchMemos]
    returns the memos of [getMemos] whose title or content contains the
    query, letter case ignored, in the same order. *)
Theorem lists_are_getMemos_filtered (db : Db) h (q c : string) :
  NoDup (MemoRow.created_at <$> memos db) →
  c ≠ "all" →
  ∃ all,
    outcome (Memos.getMemos {| storage := db; heap := h |}) = Return all ∧
    outcome (Memos.getMemosByCategory c {| storage := db; heap := h |})
    = Return (filter (λ m, Memo.category m = c) all) ∧
    (plain_query q = true →
     is_ascii q = true →
     Forall (λ r, ascii_row r = true) (memos db) →
     outcome (Memos.searchMemos q {| storage := db; heap := h |})
     = Return (filter (λ m,
                 Is_true (includes (toLowerCase (Memo.title m)) (toLowerCase q)
                          || includes (toLowerCase (Memo.content m))
                               (toLowerCase q))) all)).
Proof.
  intros Hnd Hc. rewrite getMemos_run, getMemosByCategory_run by done.
  eexists; split; [done|]. split.
  - rewrite newest_filter by done. f_equal. by apply to_memo_filter.
  - intros Hq _ _. rewrite search_run, search_selection_plain by done.
    rewrite newest_filter by done. rewrite list_filter_filter. f_equal.
    apply to_memo_filter. intros r.
    cbn [to_memo Memo.title Memo.content].
    destruct (includes (toLowerCase (MemoRow.title r)) (toLowerCase q)
              || includes (toLowerCase (MemoRow.content r)) (toLowerCase q));
      cbn; tauto.
Qed.

(** X17, at the sample store. *)
Lemma lists_are_getMemos_filtered_witness :
  ∃ all,
    outcome (Memos.getMemos (connect Sample.db)) = Return all ∧
    outcome (Memos.getMemosByCategory "todo" (connect Sample.db))
    = Return (filter (λ m, Memo.category m = "todo") all) ∧
    outcome (Memos.searchMemos "MILK" (connect Sample.db))
    = Return (filter (λ m,
                Is_true (includes (toLowerCase (Memo.title m))
                           (toLowerCase "MILK")
                         || includes (toLowerCase (Memo.content m))
                              (toLowerCase "MILK"))) all).
Proof.
  destruct (lists_are_getMemos_filtered Sample.db [] "MILK" "todo")
    as (all & Hall & Hcat & Hsearch).
  - refine (@bool_decide_unpack _ (NoDup_dec (A:=Z) _) _). vm_compute. exact I.
  - discriminate.
  - exists all. split; [exact Hall|]. split; [exact Hcat|].
    apply Hsearch; [reflexivity | reflexivity | repeat constructor].
Defined.

End composition.
